(** * MortgageModel.py: the mortgage cost model and the affordability search

    A shallow embedding of [src/MortgageModel.py] (classes [Mortgage] and
    [MortgageModel]) and the properties its specification states about it.

    Numbers.  The program computes with Python and numpy floating point
    numbers (binary64).  In the main model every numeric value is an exact
    rational ([Q]): the operations are the ones of the source, in the same
    order, without rounding.  What Python can observe beyond the numeric
    value is the identity of a number object ([x is 0], [x is 1]); the
    three variables on which the program uses [is] are modelled with the
    type [num], which records whether the object is a CPython [int] (small
    ints are cached, so an int 0 is the literal [0]) or any other number
    object (a Python [float] or a numpy scalar).

    What the exact model preserves.  Properties that are decided by the
    order of the operations, by which expression is stored where, by the
    keys of a dictionary, by object identity and by the control flow given
    the outcome of a comparison hold of the program as they hold of the
    model.  An arithmetic identity between two different expressions does
    not: it holds over [Q] and is off by rounding in binary64, and a
    comparison that sits exactly on such an identity can go the other way in
    the program.  The module [Binary64] replays the arithmetic of
    [getMortgage] and [cost] on binary64 numbers, to show where this
    happens.  Two library behaviours are outside the model as well:
    [numpy.arange] refuses a range whose length does not fit a machine
    integer, and a division by zero on numpy scalars yields a non-finite
    value instead of raising.

    Dictionaries are [gmap string Q]; a missing key raises [KeyError]. *)

From Stdlib Require Import ZArith QArith Qround Qabs Qpower Lqa Lia Sorted Floats.
From stdpp Require Import base option list gmap strings.

Local Open Scope Q_scope.
Local Open Scope string_scope.


(** ** Python values and exceptions *)

Inductive num : Type :=
| PyInt (z : Z)      (* a CPython int object *)
| Boxed (q : Q).     (* a float, or a numpy scalar yielded by numpy.arange *)

Definition to_Q (n : num) : Q :=
  match n with
  | PyInt z => inject_Z z
  | Boxed q => q
  end.

(** [x is k] for a small integer literal [k]. *)
Definition is_ (x : num) (k : Z) : bool :=
  match x with
  | PyInt z => Z.eqb z k
  | Boxed _ => false
  end.

Inductive exn : Type :=
| KeyError (key : string)
| ValueError (msg : string)
| ZeroDivisionError.

Inductive res (A : Type) : Type :=
| Ok (a : A)
| Raise (e : exn).
Arguments Ok {A} a.
Arguments Raise {A} e.

#[global] Instance res_ret : MRet res := fun A a => Ok a.
#[global] Instance res_bind : MBind res := fun A B f m =>
  match m with
  | Ok a => f a
  | Raise e => Raise e
  end.

Abbreviation dict := (gmap string Q).

(** [d[k]] *)
Definition getitem (d : dict) (k : string) : res Q :=
  match d !! k with
  | Some v => Ok v
  | None => Raise (KeyError k)
  end.

(** [k in d] *)
Definition contains (d : dict) (k : string) : bool := bool_decide (is_Some (d !! k)).

(** Comparisons of Python numbers. *)
Definition Qltb (x y : Q) : bool := negb (Qle_bool y x).
Definition Qgeb (x y : Q) : bool := Qle_bool y x.
Definition Qgtb (x y : Q) : bool := Qltb y x.

(** Python's true division [a / b] on Python numbers.  (On numpy scalars a
    zero divisor yields a non-finite value and a warning instead; the
    rationals have no such value, so the model follows Python.) *)
Definition truediv (a b : Q) : res Q :=
  if Qeq_bool b 0 then Raise ZeroDivisionError else Ok (a / b).

(** ** numpy *)

(** [numpy.pmt(rate, nper, pv)] with [fv = 0] and [when = 'end'], from
    numpy's financial module:
    [temp = (1 + rate)**nper], [fact = nper] when [rate == 0] and
    [(temp - 1) / rate] otherwise, result [-(pv * temp) / fact]. *)
Definition pmt (rate : Q) (nper : Z) (pv : Q) : Q :=
  let temp := (1 + rate) ^ nper in
  let fact := if Qeq_bool rate 0 then inject_Z nper else (temp - 1) / rate in
  - (pv * temp) / fact.

(** [numpy.arange(start, stop, step)]: [ceil((stop - start) / step)] values
    [start + i * step].  Each value is the rational in lowest terms.
    (numpy computes the length and the values in binary64, and raises
    [ValueError] when the length does not fit a machine integer; the model
    has neither the rounding nor that limit.) *)
Definition arange (start stop step : Q) : list Q :=
  map (fun i : nat => Qred (start + inject_Z (Z.of_nat i) * step))
      (seq 0 (Z.to_nat (Qceiling ((stop - start) / step)))).

(** ** class Mortgage *)

Record Mortgage : Type := mkMortgage {
  home_value : num;
  financing : dict;
  asset : dict;
}.

Definition setdefault (k : string) (v : Q) (d : dict) : dict :=
  if contains d k then d else <[k := v]> d.

(** The three [if ... not in asset] statements of [Mortgage.__init__]. *)
Definition asset_defaults (home_value : num) (asset : dict) : dict :=
  setdefault "hoa" 0
    (setdefault "tax_rate" (1 # 100)
      (setdefault "current_value" (to_Q home_value) asset)).

(** [Mortgage(home_value, financing, asset)] on dictionaries no one else
    holds (the aliasing of the default arguments is modelled in [Heap]). *)
Definition Mortgage_init (home_value : num) (financing asset : dict) : Mortgage :=
  {| home_value := home_value;
     financing := financing;
     asset := asset_defaults home_value asset |}.

(** [Mortgage.pmi] *)
Definition pmi (mortgage_size percent_down : Q) : Q :=
  if Qgeb percent_down (2 # 10) then 0
  else if Qgeb percent_down (15 # 100) then mortgage_size * (44 # 10000)
  else if Qgeb percent_down (1 # 10) then mortgage_size * (59 # 10000)
  else if Qgeb percent_down (5 # 100) then mortgage_size * (76 # 10000)
  else mortgage_size * (98 # 10000).

(** [Mortgage.cost]; the dictionary lookups and the division are evaluated
    in the order of the source, which fixes the exception raised. *)
Definition cost (self : Mortgage) : res dict :=
  if is_ (home_value self) 0 then Ok ∅ else
  let financing := financing self in
  let asset := asset self in
  asset_value ← getitem asset "current_value";
  down_payment ← getitem financing "down_payment";
  let mortgage_size := asset_value - down_payment in
  closing_cost ← getitem financing "closing_cost";
  let initial_cost := mortgage_size * closing_cost + down_payment in
  percent_down ← truediv down_payment asset_value;
  let pmi_payment := pmi mortgage_size percent_down / 12 in
  interest_rate ← getitem financing "interest_rate";
  let mortgage_payment := Qabs (pmt (interest_rate / 12) (12 * 30) mortgage_size) in
  tax_rate ← getitem asset "tax_rate";
  let tax_payment := (asset_value * tax_rate) / 12 in
  let insurance_cost := ((35 # 10000) * asset_value) / 12 in
  hoa ← getitem asset "hoa";
  Ok (<["initial_cost" := initial_cost]>
     (<["closing_cost" := initial_cost - down_payment]>
     (<["down_payment_cost" := down_payment]>
     (<["percent_down" := percent_down]>
     (<["mortgage_size" := mortgage_size]>
     (<["mortgage_payment" := mortgage_payment]>
     (<["pmi_payment" := pmi_payment]>
     (<["tax_payment" := tax_payment]>
     (<["insurance_payment" := insurance_cost]>
     (<["hoa" := hoa]>
     (<["monthly_payment" :=
          mortgage_payment + pmi_payment + tax_payment + insurance_cost + hoa]>
      ∅))))))))))).

(** [Mortgage.isValid] *)
Definition isValid (self : Mortgage) : bool := Qgtb (to_Q (home_value self)) 0.

(** ** class MortgageModel *)

Record MortgageModel : Type := mkMortgageModel {
  model_financing : dict;   (* self.financing *)
}.

(** [MortgageModel.loadRestrictions] *)
Definition loadRestrictions (restrictions : dict) : res dict :=
  if negb (contains restrictions "savings") then
    Raise (ValueError "'savings' bound must be set in your constraints.")
  else
  savings ← getitem restrictions "savings";
  if Qltb savings 10000 then
    Raise (ValueError "Your savings are not high enough. Enter a 'savings' constraint of at least 10000.")
  else
  if negb (contains restrictions "max_monthly_payment")
     && negb (contains restrictions "max_mortgage") then
    Raise (ValueError "You did not't provide any constraints. You must a 'max_monthly_payment' or 'max_mortgage'.")
  else
  Ok (setdefault "tax_rate" (125 # 10000)
     (setdefault "hoa" 0
     (setdefault "max_mortgage" 999999999999999999
     (setdefault "max_monthly_payment" 999999999999999999 restrictions)))).

(** [MortgageModel.loadFinancing] *)
Definition loadFinancing (self : MortgageModel) : res dict :=
  let financing := model_financing self in
  if negb (contains financing "interest_rate") then
    Raise (ValueError "'interest_rate' value is required in the financing argument.")
  else
  Ok (setdefault "down_payment" 0
     (setdefault "closing_cost" (5 # 100)
     (setdefault "mortgage_term" (30 * 12) financing))).

(** [MortgageModel.getMortgage] *)
Definition getMortgage (self : MortgageModel) (home_value : num) (restrictions : dict)
  : res Mortgage :=
  financing ← loadFinancing self;
  restrictions ← loadRestrictions restrictions;
  savings ← getitem restrictions "savings";
  closing_cost ← getitem financing "closing_cost";
  quot ← truediv (savings - to_Q home_value) (closing_cost - 1);
  let down_payment := to_Q home_value - quot in
  let financing := <["down_payment" := down_payment]> financing in
  if Qltb down_payment 0 then
    Ok (Mortgage_init (PyInt 0) ∅ ∅)
  else
    tax_rate ← getitem restrictions "tax_rate";
    hoa ← getitem restrictions "hoa";
    Ok (Mortgage_init home_value financing
          (<["current_value" := to_Q home_value]>
          (<["tax_rate" := tax_rate]>
          (<["hoa" := hoa]> ∅)))).

(** The record [best_value] of the search. *)
Record best_value : Type := mkBest {
  bv_value : num;          (* best_value["value"] *)
  bv_mortgage : Mortgage;  (* best_value["mortgage"] *)
  bv_cost : dict;          (* best_value["cost"] *)
}.

Definition best_value0 : best_value :=
  {| bv_value := PyInt 0;
     bv_mortgage := Mortgage_init (PyInt 0) ∅ ∅;
     bv_cost := {["monthly_payment" := 0]} |}.

(** One pass through the body of the inner [for i in ...] loop, for the
    outer candidate [j]; the state is [(best_value, found_a_match)].  The
    loop variable [i] does not occur in the body. *)
Definition sweep_body (self : MortgageModel) (restrictions : dict) (j : Q)
    (st : best_value * bool) : res (best_value * bool) :=
  let best := st.1 in
  mortgage ← getMortgage self (Boxed j) restrictions;
  if negb (isValid mortgage) then Ok st else
  cost ← cost mortgage;
  monthly_payment ← getitem cost "monthly_payment";
  max_monthly_payment ← getitem restrictions "max_monthly_payment";
  let low_enough_monthly_payment := Qle_bool monthly_payment max_monthly_payment in
  initial_cost ← getitem cost "initial_cost";
  savings ← getitem restrictions "savings";
  let have_enough_funds := Qle_bool initial_cost savings in
  mortgage_size ← getitem cost "mortgage_size";
  max_mortgage ← getitem restrictions "max_mortgage";
  let is_mortgage_too_big := Qgtb mortgage_size max_mortgage in
  let is_same_value := Qeq_bool j (to_Q (bv_value best)) in
  best_monthly_payment ← getitem (bv_cost best) "monthly_payment";
  let is_lower_monthly_payment := Qltb monthly_payment best_monthly_payment in
  if is_mortgage_too_big then Ok st else
  if (low_enough_monthly_payment && have_enough_funds)
     || (is_same_value && is_lower_monthly_payment) then
    if Qgtb j (to_Q (bv_value best)) then
      Ok ({| bv_value := Boxed j; bv_mortgage := mortgage; bv_cost := cost |}, true)
    else Ok st
  else Ok st.

(** The values of [numpy.arange(0.05, 1.01, 0.001)]. *)
Definition percent_sweep : list Q := arange (5 # 100) (101 # 100) (1 # 1000).

Section Search.

(** The values the inner loop runs over: [percent_sweep] in the program. *)
Variable sweep : list Q.

(** [for i in sweep: body] *)
Fixpoint inner_loop (self : MortgageModel) (restrictions : dict) (j : Q)
    (rest : list Q) (st : best_value * bool) : res (best_value * bool) :=
  match rest with
  | [] => Ok st
  | _ :: rest' =>
      st' ← sweep_body self restrictions j st;
      inner_loop self restrictions j rest' st'
  end.

(** [for j in js: ...] with its [break]; returns [best_value] and
    [upper_bound] as they are after the loop. *)
Fixpoint outer_loop (self : MortgageModel) (restrictions : dict)
    (js : list Q) (best : best_value) (upper_bound : num)
  : res (best_value * num) :=
  match js with
  | [] => Ok (best, upper_bound)
  | j :: js' =>
      st ← inner_loop self restrictions j sweep (best, false);
      if negb st.2 then Ok (st.1, Boxed j)
      else outer_loop self restrictions js' st.1 upper_bound
  end.

(** [MortgageModel.optimizeTotalHomeValue].  The recursion of the source
    has no measure that decreases, so the model counts the calls: [None]
    means that [fuel] nested calls did not reach a [return]. *)
Fixpoint optimize_with (fuel : nat) (self : MortgageModel) (restrictions : dict)
    (lower_bound upper_bound step : num) : option (res Mortgage) :=
  match fuel with
  | O => None
  | S fuel' =>
      match loadRestrictions restrictions with
      | Raise e => Some (Raise e)
      | Ok restrictions =>
          match getitem restrictions "savings" with
          | Raise e => Some (Raise e)
          | Ok savings =>
              let '(lower_bound, upper_bound, step) :=
                if is_ lower_bound 0
                then (Boxed savings, PyInt 9999999, PyInt 100000)
                else (lower_bound, upper_bound, step) in
              let step := if Qltb (to_Q step) 50 then PyInt 1 else step in
              match outer_loop self restrictions
                      (arange (to_Q lower_bound) (to_Q upper_bound) (to_Q step))
                      best_value0 upper_bound with
              | Raise e => Some (Raise e)
              | Ok (best, upper_bound) =>
                  if is_ step 1 then Some (Ok (bv_mortgage best))
                  else optimize_with fuel' self restrictions
                         (bv_value best) upper_bound (Boxed (to_Q step / 2))
              end
          end
      end
  end.

End Search.

(** The program: the inner loop runs over [numpy.arange(0.05, 1.01, 0.001)]. *)
Definition optimizeTotalHomeValue : nat → MortgageModel → dict → num → num → num
    → option (res Mortgage) :=
  optimize_with percent_sweep.

(** The search with the inner loop collapsed to a single evaluation of its
    body per outer candidate, as the specification allows. *)
Definition optimize_collapsed : nat → MortgageModel → dict → num → num → num
    → option (res Mortgage) :=
  optimize_with [5 # 100].

(** ** [Mortgage.__init__] with object identity

    [Mortgage_init] above describes the values a new Mortgage holds.  The
    constructor does more than that: it writes the defaults into the very
    dictionary object it was given, and the default arguments
    [financing = {}] and [asset = {}] are two objects created once, when the
    [def] statement runs.  To state this, dictionaries live in a store and
    the Mortgage holds references. *)

Definition loc : Type := positive.
Abbreviation heap := (gmap loc dict).

Record MortgageObj : Type := mkMortgageObj {
  obj_home_value : num;
  obj_financing : loc;
  obj_asset : loc
}.

(** The two dictionaries of the default arguments, empty when the class
    body has been executed. *)
Definition default_financing : loc := 1%positive.
Definition default_asset : loc := 2%positive.
Definition heap0 : heap := <[default_financing := ∅]> {[default_asset := ∅]}.

(** [Mortgage.__init__(self, home_value = 0, financing = {}, asset = {})];
    an argument that the call leaves out is [None]. *)
Definition Mortgage_new (home_value : option num) (financing asset : option loc)
    (h : heap) : MortgageObj * heap :=
  let home_value := default (PyInt 0) home_value in
  let financing := default default_financing financing in
  let asset := default default_asset asset in
  ({| obj_home_value := home_value; obj_financing := financing; obj_asset := asset |},
   alter (asset_defaults home_value) asset h).

(** The Mortgage value that an object denotes in a store. *)
Definition deref (h : heap) (o : MortgageObj) : option Mortgage :=
  f ← h !! obj_financing o;
  a ← h !! obj_asset o;
  Some {| home_value := obj_home_value o; financing := f; asset := a |}.

(** ** Conditions on the inputs *)

(** The restrictions that [loadRestrictions] refuses: no [savings], savings
    below 10000, or neither [max_monthly_payment] nor [max_mortgage]. *)
Definition rejected_restrictions (r : dict) : Prop :=
  r !! "savings" = None
  ∨ (∃ s, r !! "savings" = Some s ∧ s < 10000)
  ∨ (r !! "max_monthly_payment" = None ∧ r !! "max_mortgage" = None).

(** The financing that [loadFinancing] refuses: no [interest_rate]. *)
Definition rejected_financing (self : MortgageModel) : Prop :=
  model_financing self !! "interest_rate" = None.

Definition is_ValueError (e : exn) : Prop := ∃ msg, e = ValueError msg.

(** A cost breakdown [c] respects the (loaded) restrictions [r]: the three
    comparisons that the search makes on a candidate. *)
Definition within_restrictions (r c : dict) : Prop :=
  ∃ monthly_payment max_monthly_payment initial_cost savings mortgage_size max_mortgage,
    c !! "monthly_payment" = Some monthly_payment
    ∧ r !! "max_monthly_payment" = Some max_monthly_payment
    ∧ c !! "initial_cost" = Some initial_cost
    ∧ r !! "savings" = Some savings
    ∧ c !! "mortgage_size" = Some mortgage_size
    ∧ r !! "max_mortgage" = Some max_mortgage
    ∧ monthly_payment <= max_monthly_payment
    ∧ initial_cost <= savings
    ∧ mortgage_size <= max_mortgage.

(** The record [best] was written by the search for the candidate [j]. *)
Definition selected (self : MortgageModel) (r : dict) (j : Q) (best : best_value) : Prop :=
  bv_value best = Boxed j
  ∧ getMortgage self (Boxed j) r = Ok (bv_mortgage best)
  ∧ isValid (bv_mortgage best) = true
  ∧ cost (bv_mortgage best) = Ok (bv_cost best)
  ∧ within_restrictions r (bv_cost best).

(** ** The defaults of the two loaders *)

(** The entries that [loadRestrictions] adds when they are absent. *)
Definition restriction_defaults : dict :=
  <["max_monthly_payment" := 999999999999999999]>
  (<["max_mortgage" := 999999999999999999]>
  (<["hoa" := 0]>
  {["tax_rate" := 125 # 10000]})).

(** The entries that [loadFinancing] adds when they are absent. *)
Definition financing_defaults : dict :=
  <["mortgage_term" := 30 * 12]>
  (<["closing_cost" := 5 # 100]>
  {["down_payment" := 0]}).

(** ** The arithmetic of [getMortgage] and [cost] on binary64 numbers

    The same expressions as in the source, evaluated with the rounding of
    the program (IEEE 754 binary64, round to nearest even).  An [int]
    operand of a mixed operation is converted to the float of the same
    value, which is exact for the values used here. *)

Module Binary64.

#[local] Set Warnings "-inexact-float".
Local Open Scope float_scope.

(** [home_value - (restrictions["savings"] - home_value) / (financing["closing_cost"] - 1)],
    the down payment that [getMortgage] derives. *)
Definition down_payment (home_value savings closing_cost : float) : float :=
  home_value - (savings - home_value) / (closing_cost - 1).

(** [financing["down_payment"] < 0], the test of [getMortgage]. *)
Definition is_placeholder (home_value savings closing_cost : float) : bool :=
  down_payment home_value savings closing_cost <? 0.

(** [asset_value - financing["down_payment"]] *)
Definition mortgage_size (asset_value down_payment : float) : float :=
  asset_value - down_payment.

(** [mortgage_size * financing["closing_cost"] + financing["down_payment"]] *)
Definition initial_cost (asset_value down_payment closing_cost : float) : float :=
  mortgage_size asset_value down_payment * closing_cost + down_payment.

(** [cost()["initial_cost"]] of the Mortgage that [getMortgage] builds for
    [home_value]. *)
Definition initial_cost_of (home_value savings closing_cost : float) : float :=
  initial_cost home_value (down_payment home_value savings closing_cost) closing_cost.

(** [cost["initial_cost"] <= restrictions["savings"]], the funds test of
    the search. *)
Definition have_enough_funds (home_value savings closing_cost : float) : bool :=
  initial_cost_of home_value savings closing_cost <=? savings.

End Binary64.

(** ** Example inputs *)

(** A priced mortgage: value 200000, 40000 down, on an interest-free loan
    (the power [(1 + rate) ^ 360] of any other rate has thousands of digits). *)
Definition example_financing : dict :=
  <["down_payment" := 40000]> (<["closing_cost" := 5 # 100]> {["interest_rate" := 0]}).
Definition example_mortgage : Mortgage := Mortgage_init (PyInt 200000) example_financing ∅.
Definition example_breakdown : dict :=
  match cost example_mortgage with Ok d => d | Raise _ => ∅ end.

(** An interest-free financing offer and a buyer with 50000 of savings. *)
Definition example_model : MortgageModel :=
  mkMortgageModel {["interest_rate" := 0]}.
Definition example_restrictions : dict :=
  <["savings" := 50000]> {["max_mortgage" := 500000]}.
Definition example_loaded_financing : dict :=
  match loadFinancing example_model with Ok d => d | Raise _ => ∅ end.
Definition example_loaded_restrictions : dict :=
  match loadRestrictions example_restrictions with Ok d => d | Raise _ => ∅ end.

(** A 15-year offer: [mortgage_term] is 180 months. *)
Definition model_15y : MortgageModel :=
  mkMortgageModel (<["mortgage_term" := 180]> {["interest_rate" := 0]}).
Definition mortgage_15y : Mortgage :=
  match getMortgage model_15y (PyInt 200000) example_restrictions with
  | Ok m => m
  | Raise _ => Mortgage_init (PyInt 0) ∅ ∅
  end.
Definition breakdown_15y : dict :=
  match cost mortgage_15y with Ok d => d | Raise _ => ∅ end.
Definition payment_15y : Q := default 0 (breakdown_15y !! "mortgage_payment").
Definition mortgage_size_15y : Q := default 0 (breakdown_15y !! "mortgage_size").


(** A model whose financing lacks [interest_rate], and restrictions whose
    savings reach the upper end of the search range. *)
Definition model_without_rate : MortgageModel := mkMortgageModel ∅.
Definition restrictions_at_range_end : dict :=
  <["savings" := 9999999]> {["max_mortgage" := 500000]}.

(** Restrictions that no home satisfies: a monthly payment of at most 1. *)
Definition infeasible_restrictions : dict :=
  <["savings" := 50000]> {["max_monthly_payment" := 1]}.
Definition infeasible_loaded : dict :=
  match loadRestrictions infeasible_restrictions with Ok d => d | Raise _ => ∅ end.

(** The home of value 525000 that the search finds for [example_model] and
    [example_restrictions]. *)
Definition example_best : Mortgage :=
  match getMortgage example_model (Boxed 525000) example_loaded_restrictions with
  | Ok m => m
  | Raise _ => Mortgage_init (PyInt 0) ∅ ∅
  end.

(** The record written when the first candidate of that search, the home
    worth the savings of 50000, is accepted. *)
Definition first_accepted : best_value :=
  match sweep_body example_model example_loaded_restrictions (Qred 50000)
          (best_value0, false) with
  | Ok st => st.1
  | Raise _ => best_value0
  end.

(** * Properties *)

(** ** Comparisons, the exception monad and dictionaries *)

Lemma Qltb_lt x y : Qltb x y = true ↔ x < y.
Proof.
  unfold Qltb. rewrite negb_true_iff. split.
  - intros H. apply Qnot_le_lt. intros Hle. apply Qle_bool_iff in Hle. congruence.
  - intros H. destruct (Qle_bool y x) eqn:E; [|done].
    apply Qle_bool_iff in E. exfalso. apply (Qlt_not_le _ _ H E).
Qed.

Lemma Qltb_irrefl x : Qltb x x = false.
Proof.
  destruct (Qltb x x) eqn:E; [|done]. apply Qltb_lt in E. exfalso. by apply (Qlt_irrefl x).
Qed.

Lemma bind_Ok {A B} (m : res A) (f : A → res B) b :
  m ≫= f = Ok b → ∃ a, m = Ok a ∧ f a = Ok b.
Proof. destruct m as [a|e]; simpl; [eauto | discriminate]. Qed.

Lemma bind_Ok_l {A B} (a : A) (f : A → res B) : Ok a ≫= f = f a.
Proof. reflexivity. Qed.

Ltac inv_bind H :=
  let x := fresh "x" in
  let Hx := fresh "Hx" in
  apply bind_Ok in H; destruct H as (x & Hx & H).

Lemma getitem_Ok (d : dict) k v : getitem d k = Ok v ↔ d !! k = Some v.
Proof. unfold getitem. destruct (d !! k); split; intros; simplify_eq; done. Qed.

Lemma truediv_Ok a b q : truediv a b = Ok q ↔ ¬ b == 0 ∧ q = a / b.
Proof.
  unfold truediv. destruct (Qeq_bool b 0) eqn:E.
  - apply Qeq_bool_iff in E. split; [done|]. intros [H _]. by destruct H.
  - split.
    + intros H. simplify_eq. split; [|done]. intros H. apply Qeq_bool_iff in H. congruence.
    + intros [_ ->]. done.
Qed.


Lemma Qgeb_le x y : Qgeb x y = true ↔ y <= x.
Proof. apply Qle_bool_iff. Qed.

Lemma Qgeb_false x y : Qgeb x y = false ↔ x < y.
Proof.
  unfold Qgeb. split.
  - intros H. apply Qnot_le_lt. intros Hle. apply Qle_bool_iff in Hle. congruence.
  - intros H. destruct (Qle_bool y x) eqn:E; [|done].
    apply Qle_bool_iff in E. exfalso. apply (Qlt_not_le _ _ H E).
Qed.

Ltac pmi_cases :=
  unfold pmi;
  repeat match goal with
  | |- context [Qgeb ?p ?t] =>
      let E := fresh "E" in
      destruct (Qgeb p t) eqn:E;
      [apply Qgeb_le in E | apply Qgeb_false in E]
  end.


Lemma lookup_setdefault k v (d : dict) k' :
  setdefault k v d !! k' =
  match d !! k' with
  | Some x => Some x
  | None => if decide (k = k') then Some v else None
  end.
Proof.
  unfold setdefault, contains. case_bool_decide as H.
  - destruct (d !! k') eqn:E; [done|]. case_decide; [|done]. subst.
    rewrite E in H. by destruct H.
  - destruct (decide (k = k')) as [->|Hne].
    + rewrite lookup_insert_eq. destruct (d !! k') eqn:E; [|done].
      destruct H. by eexists.
    + rewrite lookup_insert_ne by done. by destruct (d !! k').
Qed.

Lemma contains_true (d : dict) k : contains d k = true ↔ is_Some (d !! k).
Proof. unfold contains. by rewrite bool_decide_eq_true. Qed.

Lemma contains_false (d : dict) k : contains d k = false ↔ d !! k = None.
Proof.
  unfold contains. rewrite bool_decide_eq_false. by rewrite eq_None_not_Some.
Qed.

Lemma asset_defaults_full hv (a : dict) :
  is_Some (a !! "current_value") → is_Some (a !! "tax_rate") → is_Some (a !! "hoa") →
  asset_defaults hv a = a.
Proof.
  intros H1 H2 H3. unfold asset_defaults, setdefault.
  apply contains_true in H1, H2, H3. by rewrite H1, H2, H3.
Qed.

Lemma loadFinancing_Ok self fin :
  loadFinancing self = Ok fin →
  is_Some (model_financing self !! "interest_rate")
  ∧ fin !! "interest_rate" = model_financing self !! "interest_rate"
  ∧ is_Some (fin !! "closing_cost")
  ∧ is_Some (fin !! "down_payment")
  ∧ is_Some (fin !! "mortgage_term").
Proof.
  unfold loadFinancing. intros H.
  destruct (contains _ _) eqn:E; [|done]. simplify_eq/=.
  apply contains_true in E. rewrite !lookup_setdefault.
  destruct E as [x E]. rewrite E.
  repeat split; try done; repeat case_match; simplify_eq; eauto.
Qed.

Lemma loadRestrictions_Ok r r' :
  loadRestrictions r = Ok r' →
  ∃ s, r !! "savings" = Some s ∧ r' !! "savings" = Some s ∧ 10000 <= s
    ∧ (is_Some (r !! "max_monthly_payment") ∨ is_Some (r !! "max_mortgage"))
    ∧ is_Some (r' !! "max_monthly_payment") ∧ is_Some (r' !! "max_mortgage")
    ∧ is_Some (r' !! "hoa") ∧ is_Some (r' !! "tax_rate").
Proof.
  unfold loadRestrictions. intros H.
  destruct (contains r "savings") eqn:E; [|done]. cbn [negb] in H.
  inv_bind H. apply getitem_Ok in Hx.
  destruct (Qltb x 10000) eqn:Hs; [done|].
  destruct (negb _ && negb _) eqn:Hc; [done|]. simplify_eq.
  exists x. rewrite !lookup_setdefault, Hx.
  split; [done|]. split; [done|]. split.
  { apply Qnot_lt_le. intros Hlt. apply Qltb_lt in Hlt. congruence. }
  split.
  { apply andb_false_iff in Hc as [Hc|Hc]; apply negb_false_iff, contains_true in Hc; eauto. }
  repeat split; repeat case_match; simplify_eq; eauto.
Qed.

Lemma Qltb_false x y : Qltb x y = false ↔ y <= x.
Proof.
  unfold Qltb. rewrite negb_false_iff. apply Qle_bool_iff.
Qed.

Lemma is_0_pos h : 0 < to_Q h → is_ h 0 = false.
Proof.
  destruct h as [z|q]; [|done]. cbn. intros H.
  destruct (Z.eqb_spec z 0) as [->|]; [|done]. by apply Qlt_irrefl in H.
Qed.


Lemma asset_defaults_keys hv (a : dict) :
  is_Some (asset_defaults hv a !! "current_value")
  ∧ is_Some (asset_defaults hv a !! "tax_rate")
  ∧ is_Some (asset_defaults hv a !! "hoa").
Proof.
  unfold asset_defaults. rewrite !lookup_setdefault.
  repeat split; repeat case_match; simplify_eq; eauto.
Qed.

Lemma is_0_true h : is_ h 0 = true → h = PyInt 0.
Proof.
  destruct h as [z|q]; [|done]. cbn. intros H. apply Z.eqb_eq in H. by subst.
Qed.

Lemma is_0_nonzero h : ¬ to_Q h == 0 → is_ h 0 = false.
Proof.
  destruct h as [z|q]; [|done]. cbn. intros H.
  destruct (Z.eqb_spec z 0) as [->|]; [|done]. by destruct H.
Qed.

Lemma getitem_Raise (d : dict) k e :
  getitem d k = Raise e → e = KeyError k ∧ d !! k = None.
Proof. unfold getitem. destruct (d !! k); intros; by simplify_eq. Qed.

Lemma truediv_Raise a b e : truediv a b = Raise e → e = ZeroDivisionError ∧ b == 0.
Proof.
  unfold truediv. destruct (Qeq_bool b 0) eqn:E; intros; simplify_eq.
  split; [done|]. by apply Qeq_bool_iff.
Qed.


Lemma Ok_inj {A} (a b : A) : Ok a = Ok b → a = b.
Proof. congruence. Qed.

Lemma breakdown_lookups
    (initial_cost closing_cost down_payment percent_down mortgage_size
     mortgage_payment pmi_payment tax_payment insurance_cost hoa monthly_payment : Q) :
  let breakdown : dict :=
     <["initial_cost" := initial_cost]>
     (<["closing_cost" := closing_cost]>
     (<["down_payment_cost" := down_payment]>
     (<["percent_down" := percent_down]>
     (<["mortgage_size" := mortgage_size]>
     (<["mortgage_payment" := mortgage_payment]>
     (<["pmi_payment" := pmi_payment]>
     (<["tax_payment" := tax_payment]>
     (<["insurance_payment" := insurance_cost]>
     (<["hoa" := hoa]>
     (<["monthly_payment" := monthly_payment]> ∅)))))))))) in
  breakdown !! "initial_cost" = Some initial_cost
  ∧ breakdown !! "closing_cost" = Some closing_cost
  ∧ breakdown !! "down_payment_cost" = Some down_payment
  ∧ breakdown !! "percent_down" = Some percent_down
  ∧ breakdown !! "mortgage_size" = Some mortgage_size
  ∧ breakdown !! "mortgage_payment" = Some mortgage_payment
  ∧ breakdown !! "pmi_payment" = Some pmi_payment
  ∧ breakdown !! "tax_payment" = Some tax_payment
  ∧ breakdown !! "insurance_payment" = Some insurance_cost
  ∧ breakdown !! "hoa" = Some hoa
  ∧ breakdown !! "monthly_payment" = Some monthly_payment.
Proof. repeat split; vm_compute; reflexivity. Qed.


(** ** Exceptions *)

Lemma bind_Raise {A B} (m : res A) (f : A → res B) e :
  m ≫= f = Raise e → m = Raise e ∨ ∃ a, m = Ok a ∧ f a = Raise e.
Proof. destruct m as [a|e']; simpl; [eauto | intros; left; congruence]. Qed.

Lemma bind_Raise_l {A B} (e : exn) (f : A → res B) : Raise e ≫= f = Raise e.
Proof. reflexivity. Qed.

Lemma getitem_not_ValueError (d : dict) k e :
  getitem d k = Raise e → ¬ is_ValueError e.
Proof. intros H [msg ->]. by apply getitem_Raise in H as [? _]. Qed.

Lemma truediv_not_ValueError a b e :
  truediv a b = Raise e → ¬ is_ValueError e.
Proof. intros H [msg ->]. by apply truediv_Raise in H as [? _]. Qed.

Lemma loadRestrictions_Raise r e :
  loadRestrictions r = Raise e → is_ValueError e ∧ rejected_restrictions r.
Proof.
  unfold loadRestrictions, rejected_restrictions.
  destruct (contains r "savings") eqn:E; cbn [negb].
  2:{ intros ?; simplify_eq. apply contains_false in E. split; [by eexists|by left]. }
  apply contains_true in E as [s Hs]. pose proof Hs as Hs'. apply getitem_Ok in Hs'.
  rewrite Hs', bind_Ok_l.
  destruct (Qltb s 10000) eqn:Hlt.
  { intros ?; simplify_eq. apply Qltb_lt in Hlt. split; [by eexists|]. right; left. eauto. }
  destruct (contains r "max_monthly_payment") eqn:E1; cbn [negb andb]; [done|].
  destruct (contains r "max_mortgage") eqn:E2; cbn [negb andb]; [done|].
  intros ?; simplify_eq. apply contains_false in E1, E2.
  split; [by eexists|]. by right; right.
Qed.

Lemma loadRestrictions_rejects r :
  rejected_restrictions r → ∃ msg, loadRestrictions r = Raise (ValueError msg).
Proof.
  unfold loadRestrictions. intros H.
  destruct (contains r "savings") eqn:E; cbn [negb]; [|by eexists].
  apply contains_true in E as [s Hs]. pose proof Hs as Hs'. apply getitem_Ok in Hs'.
  rewrite Hs', bind_Ok_l.
  destruct (Qltb s 10000) eqn:Hlt; [by eexists|].
  destruct H as [H|[(s' & H & Hs10)|[H1 H2]]].
  - congruence.
  - assert (s' = s) as -> by congruence. apply Qltb_lt in Hs10. congruence.
  - apply contains_false in H1, H2. rewrite H1, H2. by eexists.
Qed.

Lemma loadRestrictions_accepts r :
  ¬ rejected_restrictions r → ∃ r', loadRestrictions r = Ok r'.
Proof.
  intros H. destruct (loadRestrictions r) as [r'|e] eqn:E; [by eexists|].
  apply loadRestrictions_Raise in E as [_ E]. by destruct H.
Qed.

Lemma loadRestrictions_Ok_not_rejected r r' :
  loadRestrictions r = Ok r' → ¬ rejected_restrictions r.
Proof.
  intros H Hrej. apply loadRestrictions_rejects in Hrej as [msg Hrej]. congruence.
Qed.

Lemma loadFinancing_Raise self e :
  loadFinancing self = Raise e → is_ValueError e ∧ rejected_financing self.
Proof.
  unfold loadFinancing, rejected_financing.
  destruct (contains _ _) eqn:E; cbn [negb]; [done|].
  intros ?; simplify_eq. apply contains_false in E. split; [by eexists|done].
Qed.

Lemma loadFinancing_rejects self :
  rejected_financing self → ∃ msg, loadFinancing self = Raise (ValueError msg).
Proof.
  unfold loadFinancing, rejected_financing. intros H.
  apply contains_false in H. rewrite H. by eexists.
Qed.

Lemma loadRestrictions_not_rejected r r' :
  loadRestrictions r = Ok r' → ¬ rejected_restrictions r'.
Proof.
  intros H. apply loadRestrictions_Ok in H as (s & _ & Hs & Hle & _ & [a Ha] & [b Hb] & _).
  intros [H|[(s' & H & Hlt)|[H1 H2]]]; [congruence| |congruence].
  assert (s' = s) as -> by congruence. by apply Qle_not_lt in Hle.
Qed.
Ltac not_ValueError H :=
  first [ by eapply getitem_not_ValueError, H
        | by eapply truediv_not_ValueError, H ].

Lemma cost_not_ValueError self e : cost self = Raise e → ¬ is_ValueError e.
Proof.
  unfold cost. destruct (is_ _ 0); [done|]. intros H.
  repeat (apply bind_Raise in H as [H|(? & _ & H)]; [not_ValueError H|]).
  done.
Qed.

Lemma getMortgage_ValueError self h r e :
  getMortgage self h r = Raise e → is_ValueError e →
  rejected_financing self ∨ rejected_restrictions r.
Proof.
  unfold getMortgage. intros H He.
  apply bind_Raise in H as [H|(fin & _ & H)].
  { left. by apply loadFinancing_Raise in H as [_ H]. }
  apply bind_Raise in H as [H|(r' & _ & H)].
  { right. by apply loadRestrictions_Raise in H as [_ H]. }
  exfalso. revert He.
  repeat (apply bind_Raise in H as [H|(? & _ & H)]; [not_ValueError H|]).
  destruct (Qltb _ 0); [done|].
  repeat (apply bind_Raise in H as [H|(? & _ & H)]; [not_ValueError H|]).
  done.
Qed.

Lemma getMortgage_rejects self h r :
  rejected_financing self ∨ rejected_restrictions r →
  ∃ msg, getMortgage self h r = Raise (ValueError msg).
Proof.
  intros H. unfold getMortgage.
  destruct (loadFinancing self) as [fin|e] eqn:Hfin.
  2:{ apply loadFinancing_Raise in Hfin as [[msg ->] _]. by exists msg. }
  destruct H as [H|H].
  { apply loadFinancing_rejects in H as [msg H]. congruence. }
  apply loadRestrictions_rejects in H as [msg H].
  exists msg. by rewrite bind_Ok_l, H.
Qed.

Lemma sweep_body_ValueError self r j st e :
  sweep_body self r j st = Raise e → is_ValueError e →
  getMortgage self (Boxed j) r = Raise e.
Proof.
  unfold sweep_body. intros H He.
  apply bind_Raise in H as [H|(m & _ & H)]; [done|].
  exfalso. revert He.
  destruct (negb (isValid m)); [done|].
  apply bind_Raise in H as [H|(c & _ & H)]; [by eapply cost_not_ValueError|].
  repeat (apply bind_Raise in H as [H|(? & _ & H)]; [not_ValueError H|]).
  repeat case_match; done.
Qed.

Lemma inner_loop_ValueError self r j l st e :
  inner_loop self r j l st = Raise e → is_ValueError e →
  rejected_financing self ∨ rejected_restrictions r.
Proof.
  revert st. induction l as [|i l IH]; intros st; [done|].
  cbn [inner_loop]. intros H He.
  apply bind_Raise in H as [H|(st' & _ & H)]; [|by eapply IH].
  eapply getMortgage_ValueError; [|done]. by eapply sweep_body_ValueError.
Qed.

Lemma outer_loop_ValueError sweep self r js best ub e :
  outer_loop sweep self r js best ub = Raise e → is_ValueError e →
  rejected_financing self ∨ rejected_restrictions r.
Proof.
  revert best. induction js as [|j js IH]; intros best; [done|].
  cbn [outer_loop]. intros H He.
  apply bind_Raise in H as [H|(st' & _ & H)]; [by eapply inner_loop_ValueError|].
  destruct (negb st'.2); [done|]. by eapply IH.
Qed.

Lemma optimize_with_ValueError sweep fuel self r lb ub step e :
  optimize_with sweep fuel self r lb ub step = Some (Raise e) → is_ValueError e →
  rejected_financing self ∨ rejected_restrictions r.
Proof.
  revert r lb ub step. induction fuel as [|fuel IH]; intros r lb ub step; [done|].
  cbn [optimize_with]. intros H He.
  destruct (loadRestrictions r) as [r'|e'] eqn:Hr.
  2:{ right. by apply loadRestrictions_Raise in Hr as [_ Hr]. }
  destruct (getitem r' "savings") as [s|e'] eqn:Hs.
  2:{ simplify_eq. by apply getitem_not_ValueError in Hs. }
  destruct (if is_ lb 0 then _ else _) as [[lb' ub'] step'].
  destruct (outer_loop _ _ _ _ _ _) as [[best ub'']|e'] eqn:Ho.
  2:{ simplify_eq. apply outer_loop_ValueError in Ho; [|done].
      destruct Ho as [Ho|Ho]; [by left|].
      by apply loadRestrictions_not_rejected in Hr. }
  destruct (is_ _ 1); [done|].
  apply IH in H; [|done]. destruct H as [H|H]; [by left|].
  by apply loadRestrictions_not_rejected in Hr.
Qed.

Lemma arange_cons start stop step :
  start < stop → 0 < step → ∃ js, arange start stop step = Qred start :: js.
Proof.
  intros Hlt Hstep. unfold arange.
  assert (Hpos : 0 < (stop - start) / step).
  { apply Qlt_shift_div_l; [done|]. lra. }
  assert (Hn : (0 < Qceiling ((stop - start) / step))%Z).
  { rewrite Zlt_Qlt. eapply Qlt_le_trans; [exact Hpos|apply Qle_ceiling]. }
  destruct (Z.to_nat _) as [|n] eqn:En; [lia|].
  cbn [seq map]. eexists. f_equal. apply Qred_complete. change (inject_Z (Z.of_nat 0)) with 0. ring.
Qed.

Lemma arange_nil start stop step : stop <= start → 0 < step → arange start stop step = [].
Proof.
  intros Hle Hstep. unfold arange.
  assert (Hpos : (stop - start) / step <= 0).
  { apply Qle_shift_div_r; [done|]. lra. }
  assert (Hn : (Qceiling ((stop - start) / step) <= 0)%Z).
  { apply Qceiling_resp_le in Hpos. by change (Qceiling 0) with 0%Z in Hpos. }
  replace (Z.to_nat _) with 0%nat by lia. done.
Qed.

(** ** The cost model *)

(** C6. Every breakdown that [cost] computes (the home value is not the
    sentinel, so the result is not the empty dictionary) satisfies:
    [mortgage_size = current_value - down_payment],
    [percent_down = down_payment / current_value],
    [closing_cost = initial_cost - down_payment], and [monthly_payment] is
    the sum of [mortgage_payment], [pmi_payment], [tax_payment],
    [insurance_payment] and [hoa] as stored in the same breakdown. *)
Theorem cost_breakdown_invariants (self : Mortgage) (breakdown : dict) :
  is_ (home_value self) 0 = false →
  cost self = Ok breakdown →
  ∃ current_value down_payment mortgage_size percent_down initial_cost
    closing_cost mortgage_payment pmi_payment tax_payment insurance_payment
    hoa monthly_payment : Q,
    asset self !! "current_value" = Some current_value
    ∧ financing self !! "down_payment" = Some down_payment
    ∧ breakdown !! "mortgage_size" = Some mortgage_size
    ∧ breakdown !! "percent_down" = Some percent_down
    ∧ breakdown !! "initial_cost" = Some initial_cost
    ∧ breakdown !! "closing_cost" = Some closing_cost
    ∧ breakdown !! "mortgage_payment" = Some mortgage_payment
    ∧ breakdown !! "pmi_payment" = Some pmi_payment
    ∧ breakdown !! "tax_payment" = Some tax_payment
    ∧ breakdown !! "insurance_payment" = Some insurance_payment
    ∧ breakdown !! "hoa" = Some hoa
    ∧ breakdown !! "monthly_payment" = Some monthly_payment
    ∧ ¬ current_value == 0
    ∧ mortgage_size = current_value - down_payment
    ∧ percent_down = down_payment / current_value
    ∧ closing_cost = initial_cost - down_payment
    ∧ monthly_payment
      = mortgage_payment + pmi_payment + tax_payment + insurance_payment + hoa.
Proof.
  intros Hnz H. unfold cost in H. rewrite Hnz in H.
  do 7 inv_bind H. apply Ok_inj in H. subst breakdown.
  apply getitem_Ok in Hx, Hx0. apply truediv_Ok in Hx2 as [Hcv ->].
  match goal with
  | |- context [<["initial_cost" := ?ic]> (<["closing_cost" := ?cc]>
         (<["down_payment_cost" := ?dp]> (<["percent_down" := ?pd]>
         (<["mortgage_size" := ?ms]> (<["mortgage_payment" := ?mp]>
         (<["pmi_payment" := ?pmi]> (<["tax_payment" := ?tax]>
         (<["insurance_payment" := ?ins]> (<["hoa" := ?hoa]>
         (<["monthly_payment" := ?mon]> ∅))))))))))] =>
      destruct (breakdown_lookups ic cc dp pd ms mp pmi tax ins hoa mon)
        as (L1 & L2 & L3 & L4 & L5 & L6 & L7 & L8 & L9 & L10 & L11)
  end.
  exists x, x0. do 10 eexists.
  split; [exact Hx|]. split; [exact Hx0|].
  split; [exact L5|]. split; [exact L4|]. split; [exact L1|]. split; [exact L2|].
  split; [exact L6|]. split; [exact L7|]. split; [exact L8|]. split; [exact L9|].
  split; [exact L10|]. split; [exact L11|].
  split; [exact Hcv|]. repeat split.
Qed.


Lemma cost_breakdown_invariants_witness :
  ∃ current_value down_payment mortgage_size percent_down initial_cost
    closing_cost mortgage_payment pmi_payment tax_payment insurance_payment
    hoa monthly_payment : Q,
    asset example_mortgage !! "current_value" = Some current_value
    ∧ financing example_mortgage !! "down_payment" = Some down_payment
    ∧ example_breakdown !! "mortgage_size" = Some mortgage_size
    ∧ example_breakdown !! "percent_down" = Some percent_down
    ∧ example_breakdown !! "initial_cost" = Some initial_cost
    ∧ example_breakdown !! "closing_cost" = Some closing_cost
    ∧ example_breakdown !! "mortgage_payment" = Some mortgage_payment
    ∧ example_breakdown !! "pmi_payment" = Some pmi_payment
    ∧ example_breakdown !! "tax_payment" = Some tax_payment
    ∧ example_breakdown !! "insurance_payment" = Some insurance_payment
    ∧ example_breakdown !! "hoa" = Some hoa
    ∧ example_breakdown !! "monthly_payment" = Some monthly_payment
    ∧ ¬ current_value == 0
    ∧ mortgage_size = current_value - down_payment
    ∧ percent_down = down_payment / current_value
    ∧ closing_cost = initial_cost - down_payment
    ∧ monthly_payment
      = mortgage_payment + pmi_payment + tax_payment + insurance_payment + hoa.
Proof.
  apply (cost_breakdown_invariants example_mortgage example_breakdown).
  - reflexivity.
  - vm_cast_no_check (@eq_refl _ (Ok example_breakdown : res dict)).
Defined.


(** C7, amended.  For a mortgage size that is not negative, [pmi] does not
    increase when [percent_down] increases; it is 0 from 0.20 on, for every
    mortgage size; and the thresholds 0.20, 0.15, 0.10 and 0.05 are
    inclusive: at exactly 0.10 the annual PMI is [mortgage_size * 0.0059]. *)
Theorem pmi_schedule :
  (∀ mortgage_size p1 p2,
      0 <= mortgage_size → p1 <= p2 → pmi mortgage_size p2 <= pmi mortgage_size p1)
  ∧ (∀ mortgage_size percent_down,
      (2 # 10) <= percent_down → pmi mortgage_size percent_down = 0)
  ∧ (∀ mortgage_size,
      pmi mortgage_size (2 # 10) = 0
      ∧ pmi mortgage_size (15 # 100) = mortgage_size * (44 # 10000)
      ∧ pmi mortgage_size (1 # 10) = mortgage_size * (59 # 10000)
      ∧ pmi mortgage_size (5 # 100) = mortgage_size * (76 # 10000)).
Proof.
  split; [|split].
  - intros ms p1 p2 Hms Hp. pmi_cases; lra.
  - intros ms p Hp. unfold pmi. apply Qgeb_le in Hp. by rewrite Hp.
  - intros ms. repeat split; reflexivity.
Qed.

Lemma pmi_schedule_witness :
  pmi 200000 (1 # 10) <= pmi 200000 (7 # 100)
  ∧ pmi 200000 (25 # 100) = 0
  ∧ pmi 200000 (1 # 10) = 200000 * (59 # 10000).
Proof.
  destruct pmi_schedule as (Hmono & Hzero & Hedge).
  split; [|split].
  - apply Hmono; [discriminate | discriminate].
  - apply Hzero. discriminate.
  - apply (Hedge 200000).
Defined.

(** C7 as stated fails for a negative mortgage size: [pmi (-1000) 0] is
    [-9.8], below [pmi (-1000) 0.2 = 0], although [0 <= 0.2]. *)
Lemma pmi_not_monotone_for_negative_size :
  0 <= (2 # 10)
  ∧ pmi (-1000) 0 == -(98 # 10)
  ∧ pmi (-1000) (2 # 10) == 0
  ∧ ¬ pmi (-1000) (2 # 10) <= pmi (-1000) 0.
Proof. repeat split; by vm_compute. Qed.


(** C4.  [cost] does not read [mortgage_term]: setting it to any value
    leaves the result unchanged.  For the 15-year offer the mortgage payment
    of a 200000 home is the 360-payment annuity, not the 180-payment one
    that the claim states. *)
Theorem cost_ignores_mortgage_term :
  (∀ hv fin a t,
      cost (mkMortgage hv (<["mortgage_term" := t]> fin) a)
      = cost (mkMortgage hv fin a))
  ∧ (∃ m breakdown payment mortgage_size,
        getMortgage model_15y (PyInt 200000) example_restrictions = Ok m
        ∧ financing m !! "mortgage_term" = Some 180
        ∧ cost m = Ok breakdown
        ∧ breakdown !! "mortgage_payment" = Some payment
        ∧ breakdown !! "mortgage_size" = Some mortgage_size
        ∧ payment == Qabs (pmt (0 / 12) 360 mortgage_size)
        ∧ ¬ payment == Qabs (pmt (0 / 12) 180 mortgage_size)).
Proof.
  split.
  - intros hv fin a t. unfold cost, getitem. cbn [home_value financing asset].
    by rewrite !lookup_insert_ne by done.
  - exists mortgage_15y, breakdown_15y, payment_15y, mortgage_size_15y.
    split; [reflexivity|].
    split; [reflexivity|].
    split; [vm_cast_no_check (@eq_refl _ (Ok breakdown_15y : res dict))|].
    split; [vm_cast_no_check (@eq_refl _ (Some payment_15y))|].
    split; [vm_cast_no_check (@eq_refl _ (Some mortgage_size_15y))|].
    split.
    + apply Qeq_bool_iff. vm_cast_no_check (@eq_refl _ true).
    + intros H. apply Qeq_bool_iff in H. revert H.
      apply not_true_iff_false. vm_cast_no_check (@eq_refl _ false).
Qed.


Lemma cost_Ok_nonempty self breakdown :
  is_ (home_value self) 0 = false →
  cost self = Ok breakdown →
  is_Some (breakdown !! "monthly_payment").
Proof.
  intros Hnz H. unfold cost in H. rewrite Hnz in H.
  do 7 inv_bind H. apply Ok_inj in H. subst breakdown.
  match goal with
  | |- context [<["initial_cost" := ?ic]> (<["closing_cost" := ?cc]>
         (<["down_payment_cost" := ?dp]> (<["percent_down" := ?pd]>
         (<["mortgage_size" := ?ms]> (<["mortgage_payment" := ?mp]>
         (<["pmi_payment" := ?pmi]> (<["tax_payment" := ?tax]>
         (<["insurance_payment" := ?ins]> (<["hoa" := ?hoa]>
         (<["monthly_payment" := ?mon]> ∅))))))))))] =>
      destruct (breakdown_lookups ic cc dp pd ms mp pmi tax ins hoa mon)
        as (_ & _ & _ & _ & _ & _ & _ & _ & _ & _ & L11)
  end.
  by eexists.
Qed.

(** C5.  The sentinel of [cost()] is the identity test [home_value is 0],
    while [isValid()] compares numerically.  For the int 0 the two agree:
    the cost is the empty result and the Mortgage is not valid.  [isValid()]
    is false for every home value that is not positive.  But for a home
    value that is not the int 0 object, a float zero in particular,
    [cost()] does not take the sentinel branch and never returns the empty
    result: it goes on to price the asset, although [isValid()] is false. *)
Theorem cost_sentinel_misses_float_zero :
  (∀ fin a,
      cost (Mortgage_init (PyInt 0) fin a) = Ok ∅
      ∧ isValid (Mortgage_init (PyInt 0) fin a) = false)
  ∧ (∀ hv fin a, to_Q hv <= 0 → isValid (Mortgage_init hv fin a) = false)
  ∧ (∀ hv fin a, is_ hv 0 = false → cost (Mortgage_init hv fin a) ≠ Ok ∅)
  ∧ (∀ q fin a,
      q == 0 →
      isValid (Mortgage_init (Boxed q) fin a) = false
      ∧ cost (Mortgage_init (Boxed q) fin a) ≠ Ok ∅).
Proof.
  assert (Hne : ∀ hv fin a, is_ hv 0 = false → cost (Mortgage_init hv fin a) ≠ Ok ∅).
  { intros hv fin a Hnz H. apply cost_Ok_nonempty in H as [x Hx]; [|done].
    by rewrite lookup_empty in Hx. }
  split; [|split; [|split]].
  - intros fin a. split; reflexivity.
  - intros hv fin a H. unfold isValid. cbn [home_value Mortgage_init].
    by apply Qltb_false.
  - exact Hne.
  - intros q fin a Hq. split.
    + unfold isValid. cbn [home_value Mortgage_init to_Q]. apply Qltb_false. lra.
    + by apply Hne.
Qed.

Lemma cost_sentinel_misses_float_zero_witness :
  isValid (Mortgage_init (Boxed 0) example_financing ∅) = false
  ∧ cost (Mortgage_init (Boxed 0) example_financing ∅) ≠ Ok ∅.
Proof.
  apply (proj2 (proj2 (proj2 cost_sentinel_misses_float_zero)) 0 example_financing ∅).
  reflexivity.
Defined.

(** ** The constructor and the shared default dictionaries *)

Lemma asset_defaults_preserves hv (d : dict) k v :
  d !! k = Some v → asset_defaults hv d !! k = Some v.
Proof.
  intros H. unfold asset_defaults. rewrite !lookup_setdefault. by rewrite H.
Qed.

Lemma asset_defaults_fills hv (d : dict) :
  (d !! "current_value" = None → asset_defaults hv d !! "current_value" = Some (to_Q hv))
  ∧ (d !! "tax_rate" = None → asset_defaults hv d !! "tax_rate" = Some (1 # 100))
  ∧ (d !! "hoa" = None → asset_defaults hv d !! "hoa" = Some 0).
Proof.
  unfold asset_defaults. rewrite !lookup_setdefault.
  repeat split; intros ->; reflexivity.
Qed.

(** C10.  The constructor writes the defaults into the dictionary object
    passed as [asset]: after the call that object holds
    [asset_defaults home_value d] where it held [d] (entries present are
    kept, [current_value], [tax_rate] and [hoa] are added when absent), the
    new Mortgage refers to that same object, and no other object changes.
    Two constructions that leave out [financing] and [asset] refer to the
    same two dictionaries, so the [current_value] written by the first one,
    its home value, is what the second one finds and keeps. *)
Theorem Mortgage_init_mutates_shared_asset :
  (∀ hv f a h d,
      h !! a = Some d →
      let r := Mortgage_new (Some hv) f (Some a) h in
      obj_asset r.1 = a
      ∧ r.2 !! a = Some (asset_defaults hv d)
      ∧ (∀ k v, d !! k = Some v → asset_defaults hv d !! k = Some v)
      ∧ (d !! "current_value" = None →
         asset_defaults hv d !! "current_value" = Some (to_Q hv))
      ∧ (d !! "tax_rate" = None → asset_defaults hv d !! "tax_rate" = Some (1 # 100))
      ∧ (d !! "hoa" = None → asset_defaults hv d !! "hoa" = Some 0)
      ∧ (∀ l, l ≠ a → r.2 !! l = h !! l))
  ∧ (∀ hv1 hv2 h d,
      h !! default_asset = Some d →
      d !! "current_value" = None →
      let r1 := Mortgage_new (Some hv1) None None h in
      let r2 := Mortgage_new (Some hv2) None None r1.2 in
      obj_asset r1.1 = obj_asset r2.1
      ∧ obj_financing r1.1 = obj_financing r2.1
      ∧ ∃ d1, r1.2 !! obj_asset r1.1 = Some d1
          ∧ r2.2 !! obj_asset r2.1 = Some d1
          ∧ d1 !! "current_value" = Some (to_Q hv1)).
Proof.
  split.
  - intros hv f a h d Hd r. unfold r, Mortgage_new. cbn [fst snd default from_option id obj_asset].
    split; [done|]. split.
    { rewrite lookup_alter_eq. by rewrite Hd. }
    split; [intros k v; apply asset_defaults_preserves|].
    destruct (asset_defaults_fills hv d) as (H1 & H2 & H3).
    do 3 (split; [done|]).
    intros l Hl. by rewrite lookup_alter_ne.
  - intros hv1 hv2 h d Hd Hcv r1 r2. unfold r2, r1, Mortgage_new.
    cbn [fst snd default from_option id obj_asset obj_financing].
    split; [done|]. split; [done|].
    exists (asset_defaults hv1 d).
    destruct (asset_defaults_fills hv1 d) as (H1 & _).
    split. { by rewrite lookup_alter_eq, Hd. }
    split; [|by apply H1].
    rewrite !lookup_alter_eq, Hd. cbn. f_equal.
    pose proof (asset_defaults_keys hv1 d) as (K1 & K2 & K3).
    by apply asset_defaults_full.
Qed.

Lemma Mortgage_init_mutates_shared_asset_witness :
  let r1 := Mortgage_new (Some (PyInt 100)) None None heap0 in
  let r2 := Mortgage_new (Some (PyInt 200)) None None r1.2 in
  obj_asset r1.1 = obj_asset r2.1
  ∧ obj_financing r1.1 = obj_financing r2.1
  ∧ ∃ d1, r1.2 !! obj_asset r1.1 = Some d1
      ∧ r2.2 !! obj_asset r2.1 = Some d1
      ∧ d1 !! "current_value" = Some (to_Q (PyInt 100)).
Proof.
  apply (proj2 Mortgage_init_mutates_shared_asset (PyInt 100) (PyInt 200) heap0 ∅);
    reflexivity.
Defined.

(** ** The two branches of getMortgage *)

Lemma getMortgage_branches self h r fin r' c s :
  loadFinancing self = Ok fin →
  loadRestrictions r = Ok r' →
  fin !! "closing_cost" = Some c →
  r' !! "savings" = Some s →
  ¬ c == 1 →
  ∃ tax hoa,
    r' !! "tax_rate" = Some tax ∧ r' !! "hoa" = Some hoa
    ∧ getMortgage self h r
      = Ok (if Qltb (to_Q h - (s - to_Q h) / (c - 1)) 0
            then Mortgage_init (PyInt 0) ∅ ∅
            else Mortgage_init h
                   (<["down_payment" := to_Q h - (s - to_Q h) / (c - 1)]> fin)
                   (<["current_value" := to_Q h]>
                   (<["tax_rate" := tax]>
                   (<["hoa" := hoa]> ∅)))).
Proof.
  intros Hfin Hr Hc Hs Hc1.
  pose proof (loadRestrictions_Ok _ _ Hr)
    as (s' & _ & Hs' & _ & _ & _ & _ & [hoa Hhoa] & [tax Htax]).
  exists tax, hoa. split; [done|]. split; [done|].
  assert (Hdiv : truediv (s - to_Q h) (c - 1) = Ok ((s - to_Q h) / (c - 1))).
  { apply truediv_Ok. split; [|done]. intros E. apply Hc1. lra. }
  unfold getMortgage. rewrite Hfin, bind_Ok_l, Hr, bind_Ok_l.
  apply getitem_Ok in Hs, Hc, Hhoa, Htax.
  rewrite Hs, bind_Ok_l, Hc, bind_Ok_l, Hdiv, bind_Ok_l.
  destruct (Qltb _ 0); [done|].
  by rewrite Htax, bind_Ok_l, Hhoa, bind_Ok_l.
Qed.

Lemma cost_priced h (fin : dict) d tax hoa c ir :
  ¬ to_Q h == 0 →
  fin !! "closing_cost" = Some c →
  fin !! "interest_rate" = Some ir →
  ∃ b,
    cost (Mortgage_init h (<["down_payment" := d]> fin)
            (<["current_value" := to_Q h]> (<["tax_rate" := tax]> (<["hoa" := hoa]> ∅))))
    = Ok b
    ∧ b !! "mortgage_size" = Some (to_Q h - d)
    ∧ b !! "initial_cost" = Some ((to_Q h - d) * c + d)
    ∧ b !! "monthly_payment"
      = Some (Qabs (pmt (ir / 12) (12 * 30) (to_Q h - d))
              + pmi (to_Q h - d) (d / to_Q h) / 12
              + to_Q h * tax / 12 + (35 # 10000) * to_Q h / 12 + hoa).
Proof.
  intros Hh Hc Hir.
  set (fin' := <["down_payment" := d]> fin).
  set (a := <["current_value" := to_Q h]>
              (<["tax_rate" := tax]> (<["hoa" := hoa]> ∅))).
  assert (Ha1 : getitem a "current_value" = Ok (to_Q h)) by (apply getitem_Ok; done).
  assert (Ha2 : getitem a "tax_rate" = Ok tax) by (apply getitem_Ok; done).
  assert (Ha3 : getitem a "hoa" = Ok hoa) by (apply getitem_Ok; done).
  assert (Hf1 : getitem fin' "down_payment" = Ok d)
    by (apply getitem_Ok, lookup_insert_eq).
  assert (Hf2 : getitem fin' "closing_cost" = Ok c).
  { apply getitem_Ok. unfold fin'. by rewrite lookup_insert_ne. }
  assert (Hf3 : getitem fin' "interest_rate" = Ok ir).
  { apply getitem_Ok. unfold fin'. by rewrite lookup_insert_ne. }
  assert (Hd : truediv d (to_Q h) = Ok (d / to_Q h)) by (by apply truediv_Ok).
  unfold cost, Mortgage_init. cbn [home_value financing asset].
  rewrite (is_0_nonzero _ Hh).
  rewrite asset_defaults_full by (by eexists).
  rewrite Ha1, bind_Ok_l, Hf1, bind_Ok_l, Hf2, bind_Ok_l, Hd, bind_Ok_l,
    Hf3, bind_Ok_l, Ha2, bind_Ok_l, Ha3, bind_Ok_l.
  eexists. split; [reflexivity|].
  match goal with
  | |- context [<["initial_cost" := ?ic]> (<["closing_cost" := ?cc]>
         (<["down_payment_cost" := ?dp]> (<["percent_down" := ?pd]>
         (<["mortgage_size" := ?ms]> (<["mortgage_payment" := ?mp]>
         (<["pmi_payment" := ?pmi]> (<["tax_payment" := ?tax]>
         (<["insurance_payment" := ?ins]> (<["hoa" := ?hoa]>
         (<["monthly_payment" := ?mon]> ∅))))))))))] =>
      destruct (breakdown_lookups ic cc dp pd ms mp pmi tax ins hoa mon)
        as (L1 & L2 & L3 & L4 & L5 & L6 & L7 & L8 & L9 & L10 & L11)
  end.
  split; [exact L5|]. split; [exact L1|]. exact L11.
Qed.


(** ** getMortgage *)

(** The equation that the derived down payment solves, over exact
    rationals: with [d = h - (s - h) / (c - 1)], the upfront cost
    [(h - d) * c + d] is [s].  The program evaluates the same two expressions
    in binary64, where the result differs from [s] by rounding. *)
Lemma initial_cost_solves_for_savings_exactly (h s c : Q) :
  ¬ c == 1 →
  (h - (h - (s - h) / (c - 1))) * c + (h - (s - h) / (c - 1)) == s.
Proof. intros Hc. field. intros E. apply Hc. lra. Qed.



#[local] Set Warnings "-inexact-float".


(** Which branch [getMortgage] takes is decided by the sign of the value
    that the program computes.  Where the exact down payment is 0 (savings
    that just cover the closing costs: home 250000, savings 15500, rate
    0.062) the binary64 value is a negative rounding error, and the program
    returns the placeholder. *)
Lemma down_payment_sign_under_rounding :
  250000 - (15500 - 250000) / ((62 # 1000) - 1) == 0
  ∧ Binary64.down_payment 250000 15500 0.062 = (-2.9103830456733704e-11)%float
  ∧ Binary64.is_placeholder 250000 15500 0.062 = true.
Proof. repeat split; reflexivity. Qed.

(** ** The search *)

Lemma sweep_body_idem self r j st st' :
  sweep_body self r j st = Ok st' → sweep_body self r j st' = Ok st'.
Proof.
  intros H. pose proof H as H0. unfold sweep_body in H.
  inv_bind H. 
  destruct (isValid x) eqn:Hv; simpl in H.
  2:{ by simplify_eq. }
  do 8 inv_bind H.
  destruct (Qgtb x5 x6) eqn:Hbig.
  { by simplify_eq. }
  destruct (_ || _) eqn:Hcond in H.
  2:{ by simplify_eq. }
  destruct (Qgtb j _) eqn:Hgt in H.
  2:{ by simplify_eq. }
  inversion H; subst; clear H.
  unfold sweep_body.
  rewrite Hx, bind_Ok_l, Hv. cbn [negb].
  rewrite Hx0, bind_Ok_l, Hx1, bind_Ok_l, Hx2, bind_Ok_l, Hx3, bind_Ok_l,
    Hx4, bind_Ok_l, Hx5, bind_Ok_l, Hx6, bind_Ok_l.
  cbn [fst bv_cost bv_value to_Q]. rewrite Hx1, bind_Ok_l, Hbig.
  unfold Qgtb. rewrite !Qltb_irrefl.
  by case_match.
Qed.

Lemma inner_loop_stable self r j l st :
  sweep_body self r j st = Ok st → inner_loop self r j l st = Ok st.
Proof.
  intros H. induction l as [|i l IH]; [done|].
  cbn [inner_loop]. by rewrite H, bind_Ok_l.
Qed.

Lemma inner_loop_cons self r j i l st :
  inner_loop self r j (i :: l) st = sweep_body self r j st.
Proof.
  cbn [inner_loop]. destruct (sweep_body self r j st) as [st'|e] eqn:H; [|done].
  rewrite bind_Ok_l. apply inner_loop_stable. by apply sweep_body_idem in H.
Qed.

Lemma outer_loop_sweep s1 s2 self r js best ub :
  s1 ≠ [] → s2 ≠ [] →
  outer_loop s1 self r js best ub = outer_loop s2 self r js best ub.
Proof.
  intros H1 H2. destruct s1 as [|i1 s1]; [done|]. destruct s2 as [|i2 s2]; [done|].
  revert best. induction js as [|j js IH]; intros best; [done|].
  cbn [outer_loop]. rewrite !inner_loop_cons.
  destruct (sweep_body self r j (best, false)) as [st|e]; [|done].
  rewrite !bind_Ok_l. by rewrite IH.
Qed.

Lemma optimize_with_sweep s1 s2 fuel self r lb ub step :
  s1 ≠ [] → s2 ≠ [] →
  optimize_with s1 fuel self r lb ub step = optimize_with s2 fuel self r lb ub step.
Proof.
  intros H1 H2. revert r lb ub step.
  induction fuel as [|fuel IH]; intros r lb ub step; [done|].
  cbn [optimize_with].
  destruct (loadRestrictions r) as [r'|e]; [|done].
  destruct (getitem r' "savings") as [s|e]; [|done].
  destruct (if is_ lb 0 then _ else _) as [[lb' ub'] step'].
  rewrite (outer_loop_sweep s1 s2) by done.
  destruct (outer_loop s2 _ _ _ _ _) as [[best ub'']|e]; [|done].
  by rewrite IH.
Qed.

Lemma percent_sweep_length : length percent_sweep = 960%nat.
Proof. vm_compute. reflexivity. Qed.

(** C9. The inner percent-down sweep is redundant.  The body of the inner
    loop never reads the loop index, and after one pass a second pass
    leaves [best_value] and [found_a_match] as they are, so a loop over any
    sweep with a first element (the program's has 960) is one pass of the
    body; hence [optimizeTotalHomeValue] returns, raises or keeps recursing
    exactly as the search with a single evaluation per outer candidate,
    on every input and for every number of nested calls. *)
Theorem inner_sweep_collapses self restrictions :
  (∀ fuel lower_bound upper_bound step,
      optimizeTotalHomeValue fuel self restrictions lower_bound upper_bound step
      = optimize_collapsed fuel self restrictions lower_bound upper_bound step)
  ∧ (∀ j i rest st,
      inner_loop self restrictions j (i :: rest) st
      = sweep_body self restrictions j st)
  ∧ (∀ j st, inner_loop self restrictions j percent_sweep st
             = sweep_body self restrictions j st).
Proof.
  split; [|split].
  - intros. apply optimize_with_sweep; [|done].
    intros E. pose proof percent_sweep_length as L. by rewrite E in L.
  - intros. apply inner_loop_cons.
  - intros. destruct percent_sweep as [|i rest] eqn:E.
    + pose proof percent_sweep_length as L. by rewrite E in L.
    + apply inner_loop_cons.
Qed.


(** ** Restarts of the search *)

Lemma setdefault_present k v (d : dict) : is_Some (d !! k) → setdefault k v d = d.
Proof. intros H. unfold setdefault. apply contains_true in H. by rewrite H. Qed.

Lemma loadRestrictions_idem r r' :
  loadRestrictions r = Ok r' → loadRestrictions r' = Ok r'.
Proof.
  intros H.
  apply loadRestrictions_Ok in H as (s & _ & Hs & Hle & _ & Hm1 & Hm2 & Hhoa & Htax).
  unfold loadRestrictions.
  assert (Hc : contains r' "savings" = true) by (apply contains_true; eauto).
  apply contains_true in Hm1 as Hc1. 
  rewrite Hc. cbn [negb]. apply getitem_Ok in Hs. rewrite Hs, bind_Ok_l.
  apply Qltb_false in Hle. rewrite Hle, Hc1. cbn [negb andb].
  rewrite (setdefault_present "max_monthly_payment") by done.
  rewrite (setdefault_present "max_mortgage") by done.
  rewrite (setdefault_present "hoa") by done.
  by rewrite (setdefault_present "tax_rate") by done.
Qed.

Lemma optimize_with_reset sweep fuel self r r' s lb ub step :
  is_ lb 0 = true → loadRestrictions r = Ok r' → r' !! "savings" = Some s →
  optimize_with sweep (S fuel) self r lb ub step =
  match outer_loop sweep self r' (arange s 9999999 100000) best_value0 (PyInt 9999999) with
  | Raise e => Some (Raise e)
  | Ok (best, ub') =>
      optimize_with sweep fuel self r' (bv_value best) ub' (Boxed (100000 / 2))
  end.
Proof.
  intros Hlb Hr Hs. apply getitem_Ok in Hs.
  cbn [optimize_with]. rewrite Hr, Hs, Hlb. reflexivity.
Qed.

Lemma optimize_with_restarts sweep self r' s best ub' :
  loadRestrictions r' = Ok r' → r' !! "savings" = Some s →
  outer_loop sweep self r' (arange s 9999999 100000) best_value0 (PyInt 9999999)
    = Ok (best, ub') →
  bv_value best = PyInt 0 →
  ∀ fuel lb ub step, is_ lb 0 = true → optimize_with sweep fuel self r' lb ub step = None.
Proof.
  intros Hr Hs Ho Hb fuel. induction fuel as [|fuel IH]; intros lb ub step Hlb; [done|].
  rewrite (optimize_with_reset _ _ _ _ _ _ _ _ _ Hlb Hr Hs), Ho, Hb. by apply IH.
Qed.

Lemma optimize_with_diverges sweep self r r' s best ub' :
  loadRestrictions r = Ok r' → r' !! "savings" = Some s →
  outer_loop sweep self r' (arange s 9999999 100000) best_value0 (PyInt 9999999)
    = Ok (best, ub') →
  bv_value best = PyInt 0 →
  ∀ fuel lb ub step, is_ lb 0 = true → optimize_with sweep fuel self r lb ub step = None.
Proof.
  intros Hr Hs Ho Hb [|fuel] lb ub step Hlb; [done|].
  rewrite (optimize_with_reset _ _ _ _ _ _ _ _ _ Hlb Hr Hs), Ho, Hb.
  eapply optimize_with_restarts; eauto using loadRestrictions_idem.
Qed.

Lemma percent_sweep_cons : ∃ i rest, percent_sweep = i :: rest.
Proof.
  destruct percent_sweep as [|i rest] eqn:E; [|by eauto].
  pose proof percent_sweep_length as L. by rewrite E in L.
Qed.

Lemma outer_loop_break sweep self r j js best ub st :
  sweep ≠ [] → sweep_body self r j (best, false) = Ok st → st.2 = false →
  outer_loop sweep self r (j :: js) best ub = Ok (st.1, Boxed j).
Proof.
  intros Hsw H Hf. destruct sweep as [|i l]; [done|].
  cbn [outer_loop]. by rewrite inner_loop_cons, H, bind_Ok_l, Hf.
Qed.

Lemma outer_loop_raise sweep self r j js best ub e :
  sweep ≠ [] → sweep_body self r j (best, false) = Raise e →
  outer_loop sweep self r (j :: js) best ub = Raise e.
Proof.
  intros Hsw H. destruct sweep as [|i l]; [done|].
  cbn [outer_loop]. by rewrite inner_loop_cons, H.
Qed.

Lemma percent_sweep_nonempty : percent_sweep ≠ [].
Proof. destruct percent_sweep_cons as (i & rest & ->). done. Qed.

(** ** What the search records *)

Lemma sweep_body_update self r j best found best' found' :
  sweep_body self r j (best, found) = Ok (best', found') →
  (best' = best ∧ found' = found)
  ∨ (found' = true ∧ to_Q (bv_value best) < j ∧ selected self r j best').
Proof.
  unfold sweep_body. cbn [fst]. intros H.
  inv_bind H. destruct (isValid x) eqn:Hv; cbn [negb] in H.
  2:{ left. by simplify_eq. }
  do 8 inv_bind H.
  destruct (Qgtb x5 x6) eqn:Hbig. { left. by simplify_eq. }
  destruct (_ || _) eqn:Hcond in H. 2:{ left. by simplify_eq. }
  destruct (Qgtb j _) eqn:Hgt in H. 2:{ left. by simplify_eq. }
  apply Ok_inj in H. injection H as <- <-. right.
  apply Qltb_lt in Hgt. split; [done|]. split; [done|].
  unfold selected. cbn [bv_value bv_mortgage bv_cost].
  do 4 (split; [done|]).
  apply getitem_Ok in Hx1, Hx2, Hx3, Hx4, Hx5, Hx6.
  exists x1, x2, x3, x4, x5, x6. do 6 (split; [done|]).
  apply Qltb_false in Hbig.
  apply orb_true_iff in Hcond as [Hc|Hc]; apply andb_true_iff in Hc as [H1 H2].
  - apply Qle_bool_iff in H1, H2. done.
  - apply Qeq_bool_iff in H1. exfalso. rewrite H1 in Hgt. by apply Qlt_irrefl in Hgt.
Qed.

(** What a record of the search holds: the initial one, or one written for
    a candidate. *)
Lemma inner_loop_record self r j l best found best' found' :
  inner_loop self r j l (best, found) = Ok (best', found') →
  (best = best_value0 ∨ ∃ j', selected self r j' best) →
  best' = best_value0 ∨ ∃ j', selected self r j' best'.
Proof.
  revert best found. induction l as [|i l IH]; intros best found.
  { cbn. intros H. by simplify_eq. }
  cbn [inner_loop]. intros H Hb. inv_bind H. destruct x as [b1 f1].
  apply (IH _ _ H).
  apply sweep_body_update in Hx as [[-> _]|(_ & _ & Hsel)]; [done|eauto].
Qed.

Lemma outer_loop_record sweep self r js best ub best' ub' :
  outer_loop sweep self r js best ub = Ok (best', ub') →
  (best = best_value0 ∨ ∃ j', selected self r j' best) →
  best' = best_value0 ∨ ∃ j', selected self r j' best'.
Proof.
  revert best. induction js as [|j js IH]; intros best.
  { cbn. intros H. by simplify_eq. }
  cbn [outer_loop]. intros H Hb. inv_bind H. destruct x as [b1 f1].
  apply inner_loop_record in Hx; [|done].
  cbn [fst snd] in H. destruct (negb f1).
  - by simplify_eq.
  - by apply (IH _ H).
Qed.

Lemma optimize_with_record sweep fuel self r r' lb ub step m :
  optimize_with sweep fuel self r lb ub step = Some (Ok m) →
  loadRestrictions r = Ok r' →
  m = Mortgage_init (PyInt 0) ∅ ∅
  ∨ ∃ j best, selected self r' j best ∧ m = bv_mortgage best.
Proof.
  revert r lb ub step. induction fuel as [|fuel IH]; intros r lb ub step; [done|].
  cbn [optimize_with]. intros H Hr. rewrite Hr in H.
  destruct (getitem r' "savings") as [s|e]; [|done].
  destruct (if is_ lb 0 then _ else _) as [[lb' ub'] step'].
  destruct (outer_loop _ _ _ _ _ _) as [[best ub'']|e] eqn:Ho; [|done].
  destruct (is_ _ 1).
  - simplify_eq. apply outer_loop_record in Ho as [->|[j Hj]]; [by left| |by left].
    right. eauto.
  - apply (IH _ _ _ _ H). by eapply loadRestrictions_idem.
Qed.

(** ** The result of the search *)

(** C2.  When [optimizeTotalHomeValue] returns a Mortgage that is valid, the
    Mortgage has a cost breakdown and the breakdown respects the loaded
    restrictions: [monthly_payment <= max_monthly_payment],
    [initial_cost <= savings] and [mortgage_size <= max_mortgage].  A pass of
    the loop body that changes the best-so-far record writes the current
    candidate [j], which is strictly greater than the value recorded
    before, with a valid Mortgage, and sets [found_a_match].  A Mortgage
    returned that is not valid is the initial placeholder
    [Mortgage(0, {}, {})]: no candidate was selected. *)
Theorem optimize_result_respects_restrictions fuel self r r' lb ub step m :
  optimizeTotalHomeValue fuel self r lb ub step = Some (Ok m) →
  loadRestrictions r = Ok r' →
  (isValid m = true →
     ∃ breakdown, cost m = Ok breakdown ∧ within_restrictions r' breakdown)
  ∧ (∀ j best found best' found',
       sweep_body self r' j (best, found) = Ok (best', found') →
       best' ≠ best →
       to_Q (bv_value best) < j
       ∧ bv_value best' = Boxed j
       ∧ isValid (bv_mortgage best') = true
       ∧ within_restrictions r' (bv_cost best')
       ∧ found' = true)
  ∧ (isValid m = false → m = Mortgage_init (PyInt 0) ∅ ∅).
Proof.
  intros H Hr. apply (optimize_with_record _ _ _ _ r') in H; [|done].
  split; [|split].
  - intros Hv. destruct H as [->|(j & best & Hsel & ->)]; [done|].
    destruct Hsel as (_ & _ & _ & Hc & Hw). eauto.
  - intros j best found best' found' Hs Hne.
    apply sweep_body_update in Hs as [[-> _]|(-> & Hlt & Hsel)]; [done|].
    destruct Hsel as (Hj & _ & Hv & _ & Hw). done.
  - intros Hv. destruct H as [->|(j & best & Hsel & ->)]; [done|].
    destruct Hsel as (_ & _ & Hv' & _). congruence.
Qed.

Lemma optimize_result_respects_restrictions_witness :
  ∃ breakdown,
    cost example_best = Ok breakdown
    ∧ within_restrictions example_loaded_restrictions breakdown.
Proof.
  refine (proj1 (optimize_result_respects_restrictions 12 example_model
            example_restrictions example_loaded_restrictions
            (PyInt 0) (PyInt 0) (PyInt 0) example_best _ _) _).
  - etransitivity.
    + apply (optimize_with_sweep percent_sweep [5 # 100]);
        [apply percent_sweep_nonempty|discriminate].
    + vm_cast_no_check (@eq_refl _ (Some (Ok example_best))).
  - reflexivity.
  - reflexivity.
Defined.

(** ** Validation errors and restarts *)

(** C8.  [getMortgage] raises [ValueError] exactly when the financing lacks
    [interest_rate] or the restrictions are refused (no [savings], savings
    below 10000, neither [max_monthly_payment] nor [max_mortgage]).
    [optimizeTotalHomeValue] raises [ValueError] in its first call, before
    the loops, when the restrictions are refused.  It does not check the
    financing itself: with accepted restrictions and no [interest_rate] the
    [ValueError] comes from the [getMortgage] of the first candidate, when
    the savings are below 9999999; from 9999999 on (up to
    999999999999999999, the program's own stand-in for infinity) there is
    no candidate, the missing [interest_rate] is never reported and the
    search restarts for ever.  With accepted restrictions below 9999999 and
    [interest_rate] present the first call raises no [ValueError]. *)
Theorem validation_errors self r :
  (∀ h, (∃ msg, getMortgage self h r = Raise (ValueError msg))
        ↔ rejected_financing self ∨ rejected_restrictions r)
  ∧ (rejected_restrictions r →
     ∀ fuel lb ub step, ∃ msg,
       optimizeTotalHomeValue (S fuel) self r lb ub step = Some (Raise (ValueError msg)))
  ∧ (¬ rejected_restrictions r → rejected_financing self →
     ∀ s, r !! "savings" = Some s → s < 9999999 →
     ∀ fuel ub step, ∃ msg,
       optimizeTotalHomeValue (S fuel) self r (PyInt 0) ub step
       = Some (Raise (ValueError msg)))
  ∧ (¬ rejected_restrictions r → rejected_financing self →
     ∀ s, r !! "savings" = Some s → 9999999 <= s → s <= 999999999999999999 →
     ∀ fuel ub step,
       optimizeTotalHomeValue fuel self r (PyInt 0) ub step = None)
  ∧ (¬ rejected_restrictions r → ¬ rejected_financing self →
     ∀ s, r !! "savings" = Some s → s < 9999999 →
     ∀ fuel ub step msg,
       optimizeTotalHomeValue fuel self r (PyInt 0) ub step
       ≠ Some (Raise (ValueError msg))).
Proof.
  split; [|split; [|split; [|split]]].
  - intros h. split; [|apply getMortgage_rejects].
    intros [msg H]. eapply getMortgage_ValueError; [done|by eexists].
  - intros H fuel lb ub step. apply loadRestrictions_rejects in H as [msg H].
    exists msg. unfold optimizeTotalHomeValue. cbn [optimize_with]. by rewrite H.
  - intros Hr Hf s Hs Hlt fuel ub step.
    apply loadRestrictions_accepts in Hr as [r' Hr].
    pose proof (loadRestrictions_Ok _ _ Hr) as (s' & Hs1 & Hs' & _).
    assert (s' = s) as -> by congruence.
    destruct (getMortgage_rejects self (Boxed (Qred s)) r') as [msg Hg]; [by left|].
    exists msg. unfold optimizeTotalHomeValue.
    rewrite (optimize_with_reset _ fuel _ _ _ _ (PyInt 0) ub step eq_refl Hr Hs').
    destruct (arange_cons s 9999999 100000) as [js ->]; [done|done|].
    rewrite (outer_loop_raise _ _ _ _ _ _ _ (ValueError msg)); [done|apply percent_sweep_nonempty|].
    unfold sweep_body. by rewrite Hg.
  - intros Hr _ s Hs Hge _ fuel ub step.
    apply loadRestrictions_accepts in Hr as [r' Hr].
    pose proof (loadRestrictions_Ok _ _ Hr) as (s' & Hs1 & Hs' & _).
    assert (s' = s) as -> by congruence.
    unfold optimizeTotalHomeValue.
    eapply (optimize_with_diverges _ _ _ _ s best_value0 (PyInt 9999999));
      [exact Hr|exact Hs'| |reflexivity|reflexivity].
    by rewrite arange_nil.
  - intros Hr Hf s _ _ fuel ub step msg H.
    eapply optimize_with_ValueError in H as [H|H]; [done|done|by eexists].
Qed.

Lemma validation_errors_witness :
  (∃ msg, optimizeTotalHomeValue 1 model_without_rate example_restrictions
            (PyInt 0) (PyInt 0) (PyInt 0) = Some (Raise (ValueError msg)))
  ∧ (∀ fuel ub step,
       optimizeTotalHomeValue fuel model_without_rate restrictions_at_range_end
         (PyInt 0) ub step = None).
Proof.
  split.
  - refine (proj1 (proj2 (proj2 (validation_errors model_without_rate example_restrictions)))
              _ _ 50000 _ _ 0%nat (PyInt 0) (PyInt 0)).
    + by apply (loadRestrictions_Ok_not_rejected _ example_loaded_restrictions).
    + reflexivity.
    + reflexivity.
    + reflexivity.
  - refine (proj1 (proj2 (proj2 (proj2
              (validation_errors model_without_rate restrictions_at_range_end))))
              _ _ 9999999 _ _ _).
    + by apply (loadRestrictions_Ok_not_rejected _
                  (restrictions_at_range_end ∪ restriction_defaults)).
    + reflexivity.
    + reflexivity.
    + discriminate.
    + discriminate.
Defined.

(** C3.  The search does not terminate on every accepted input.  When the
    savings are 9999999 or more (the range of candidates is empty), or when
    the first candidate, the home worth exactly the savings, is not
    accepted, the pass ends with [best_value["value"]] still the int 0;
    the recursive call receives it as [lower_bound], [lower_bound is 0]
    holds again, bounds and step are reset to those of the first call, and
    the same pass is repeated: no number of nested calls yields a result. *)
Theorem optimize_restarts_forever self r r' s :
  loadRestrictions r = Ok r' →
  r' !! "savings" = Some s →
  9999999 <= s
  ∨ sweep_body self r' (Qred s) (best_value0, false) = Ok (best_value0, false) →
  ∀ fuel ub step, optimizeTotalHomeValue fuel self r (PyInt 0) ub step = None.
Proof.
  intros Hr Hs Hfirst fuel ub step. unfold optimizeTotalHomeValue.
  destruct (Qlt_le_dec s 9999999) as [Hlt|Hge].
  - destruct Hfirst as [Hge|Hfirst]; [by apply Qle_not_lt in Hge|].
    destruct (arange_cons s 9999999 100000) as [js Hjs]; [done|done|].
    eapply (optimize_with_diverges _ _ _ _ _ best_value0 (Boxed (Qred s)));
      [exact Hr|exact Hs| |reflexivity|reflexivity].
    rewrite Hjs.
    by rewrite (outer_loop_break _ _ _ _ _ _ _ _ percent_sweep_nonempty Hfirst).
  - eapply (optimize_with_diverges _ _ _ _ _ best_value0 (PyInt 9999999));
      [exact Hr|exact Hs| |reflexivity|reflexivity].
    by rewrite arange_nil.
Qed.

Lemma optimize_restarts_forever_witness :
  loadRestrictions infeasible_restrictions = Ok infeasible_loaded
  ∧ ∀ fuel ub step,
      optimizeTotalHomeValue fuel example_model infeasible_restrictions (PyInt 0) ub step
      = None.
Proof.
  split; [reflexivity|].
  apply (optimize_restarts_forever example_model infeasible_restrictions
           infeasible_loaded 50000).
  - reflexivity.
  - reflexivity.
  - right. vm_cast_no_check (@eq_refl _ (Ok (best_value0, false) : res (best_value * bool))).
Defined.

(** ** The loaders and their defaults *)

Lemma setdefault_union k v (d : dict) : setdefault k v d = d ∪ {[k := v]}.
Proof.
  apply map_eq. intros k'. rewrite lookup_setdefault, lookup_union.
  destruct (d !! k') as [x|] eqn:E; [by rewrite union_Some_l|].
  rewrite (left_id None _). destruct (decide (k = k')) as [->|Hne].
  - by rewrite lookup_singleton_eq.
  - by rewrite lookup_singleton_ne.
Qed.

Lemma restriction_defaults_union (r : dict) :
  setdefault "tax_rate" (125 # 10000)
    (setdefault "hoa" 0
    (setdefault "max_mortgage" 999999999999999999
    (setdefault "max_monthly_payment" 999999999999999999 r)))
  = r ∪ restriction_defaults.
Proof.
  by rewrite !setdefault_union, <- !(assoc_L (∪)).
Qed.

Lemma financing_defaults_union (f : dict) :
  setdefault "down_payment" 0
    (setdefault "closing_cost" (5 # 100)
    (setdefault "mortgage_term" (30 * 12) f))
  = f ∪ financing_defaults.
Proof.
  by rewrite !setdefault_union, <- !(assoc_L (∪)).
Qed.

(** X1.  [loadRestrictions] returns, when it does not raise, the given
    restrictions completed with the defaults: every entry supplied is kept
    with its value, [max_monthly_payment] and [max_mortgage] default to
    999999999999999999, [hoa] to 0 and [tax_rate] to 0.0125, and no other key
    appears. *)
Theorem loadRestrictions_completes r r' :
  loadRestrictions r = Ok r' →
  r' = r ∪ restriction_defaults
  ∧ (∀ k v, r !! k = Some v → r' !! k = Some v)
  ∧ (∀ k, r !! k = None → r' !! k = restriction_defaults !! k)
  ∧ dom r' = dom r ∪ {["max_monthly_payment"; "max_mortgage"; "hoa"; "tax_rate"]}.
Proof.
  intros H. assert (Hr : r' = r ∪ restriction_defaults).
  { unfold loadRestrictions in H.
    destruct (negb (contains r "savings")); [done|].
    inv_bind H. destruct (Qltb x 10000); [done|].
    destruct (_ && _); [done|]. apply Ok_inj in H. subst r'.
    apply restriction_defaults_union. }
  split; [done|]. subst r'. split; [|split].
  - intros k v Hk. by apply lookup_union_Some_l.
  - intros k Hk. by apply lookup_union_r.
  - rewrite dom_union_L. by f_equal.
Qed.

Lemma loadRestrictions_completes_witness :
  example_loaded_restrictions = example_restrictions ∪ restriction_defaults
  ∧ (∀ k v, example_restrictions !! k = Some v → example_loaded_restrictions !! k = Some v)
  ∧ (∀ k, example_restrictions !! k = None →
          example_loaded_restrictions !! k = restriction_defaults !! k)
  ∧ dom example_loaded_restrictions
    = dom example_restrictions ∪ {["max_monthly_payment"; "max_mortgage"; "hoa"; "tax_rate"]}.
Proof.
  apply (loadRestrictions_completes example_restrictions example_loaded_restrictions).
  reflexivity.
Defined.

(** X2.  [loadFinancing] returns, when it does not raise, the model's
    financing completed with the defaults: every entry supplied is kept,
    [mortgage_term] defaults to 360, [closing_cost] to 0.05 and
    [down_payment] to 0, and no other key appears. *)
Theorem loadFinancing_completes self fin :
  loadFinancing self = Ok fin →
  fin = model_financing self ∪ financing_defaults
  ∧ (∀ k v, model_financing self !! k = Some v → fin !! k = Some v)
  ∧ (∀ k, model_financing self !! k = None → fin !! k = financing_defaults !! k)
  ∧ is_Some (fin !! "interest_rate")
  ∧ dom fin = dom (model_financing self) ∪ {["mortgage_term"; "closing_cost"; "down_payment"]}.
Proof.
  intros H. pose proof (loadFinancing_Ok _ _ H) as (Hir & Heq & _).
  assert (Hf : fin = model_financing self ∪ financing_defaults).
  { unfold loadFinancing in H. destruct (negb _); [done|].
    apply Ok_inj in H. subst fin. apply financing_defaults_union. }
  split; [done|]. split; [|split; [|split]].
  - intros k v Hk. subst fin. by apply lookup_union_Some_l.
  - intros k Hk. subst fin. by apply lookup_union_r.
  - by rewrite Heq.
  - subst fin. rewrite dom_union_L. by f_equal.
Qed.

Lemma loadFinancing_completes_witness :
  example_loaded_financing = model_financing example_model ∪ financing_defaults
  ∧ (∀ k v, model_financing example_model !! k = Some v →
            example_loaded_financing !! k = Some v)
  ∧ (∀ k, model_financing example_model !! k = None →
          example_loaded_financing !! k = financing_defaults !! k)
  ∧ is_Some (example_loaded_financing !! "interest_rate")
  ∧ dom example_loaded_financing
    = dom (model_financing example_model) ∪ {["mortgage_term"; "closing_cost"; "down_payment"]}.
Proof.
  apply (loadFinancing_completes example_model example_loaded_financing).
  reflexivity.
Defined.

(** X3.  Restrictions that have been loaded load to themselves, so the
    repeated loading that the program does (once in every call of
    [optimizeTotalHomeValue], once more in every [getMortgage]) changes
    nothing: [getMortgage] and the search give the same outcome on the
    loaded restrictions as on the original ones. *)
Theorem reloading_restrictions_is_harmless self r r' :
  loadRestrictions r = Ok r' →
  loadRestrictions r' = Ok r'
  ∧ (∀ h, getMortgage self h r' = getMortgage self h r)
  ∧ (∀ fuel lb ub step,
       optimizeTotalHomeValue fuel self r' lb ub step
       = optimizeTotalHomeValue fuel self r lb ub step).
Proof.
  intros Hr. pose proof (loadRestrictions_idem _ _ Hr) as Hr'.
  split; [done|]. split.
  - intros h. unfold getMortgage. by rewrite Hr, Hr'.
  - intros [|fuel] lb ub step; [done|].
    unfold optimizeTotalHomeValue. cbn [optimize_with]. by rewrite Hr, Hr'.
Qed.

Lemma reloading_restrictions_is_harmless_witness :
  loadRestrictions example_loaded_restrictions = Ok example_loaded_restrictions
  ∧ (∀ h, getMortgage example_model h example_loaded_restrictions
          = getMortgage example_model h example_restrictions)
  ∧ (∀ fuel lb ub step,
       optimizeTotalHomeValue fuel example_model example_loaded_restrictions lb ub step
       = optimizeTotalHomeValue fuel example_model example_restrictions lb ub step).
Proof.
  apply (reloading_restrictions_is_harmless example_model example_restrictions).
  reflexivity.
Defined.

Lemma loadFinancing_agree self1 self2 :
  (∀ k, k ≠ "down_payment" → model_financing self1 !! k = model_financing self2 !! k) →
  match loadFinancing self1, loadFinancing self2 with
  | Ok fin1, Ok fin2 => ∀ k, k ≠ "down_payment" → fin1 !! k = fin2 !! k
  | Raise e1, Raise e2 => e1 = e2
  | _, _ => False
  end.
Proof.
  intros H. unfold loadFinancing, contains. rewrite (H "interest_rate") by done.
  case_bool_decide; cbn [negb]; [|done].
  rewrite !financing_defaults_union. intros k Hk.
  by rewrite !lookup_union, H.
Qed.

(** X4.  [getMortgage] overwrites [down_payment] with the amount it
    derives: a [down_payment] supplied in the model's financing, or the
    default 0 that [loadFinancing] adds, has no influence on the result. *)
Theorem getMortgage_ignores_supplied_down_payment self1 self2 h r :
  (∀ k, k ≠ "down_payment" → model_financing self1 !! k = model_financing self2 !! k) →
  getMortgage self1 h r = getMortgage self2 h r.
Proof.
  intros H. apply loadFinancing_agree in H. unfold getMortgage.
  destruct (loadFinancing self1) as [fin1|e1], (loadFinancing self2) as [fin2|e2];
    [|done|done|by subst].
  rewrite !bind_Ok_l. destruct (loadRestrictions r) as [r'|e]; [|done].
  rewrite !bind_Ok_l. destruct (getitem r' "savings") as [s|e]; [|done].
  rewrite !bind_Ok_l.
  assert (Hcc : getitem fin1 "closing_cost" = getitem fin2 "closing_cost").
  { unfold getitem. by rewrite (H "closing_cost"). }
  rewrite Hcc. destruct (getitem fin2 "closing_cost") as [c|e]; [|reflexivity].
  rewrite !bind_Ok_l. destruct (truediv _ _) as [q|e]; [|done].
  rewrite !bind_Ok_l. cbn zeta.
  assert (Heq : ∀ d : Q, <["down_payment" := d]> fin1 = <["down_payment" := d]> fin2).
  { intros d. apply map_eq. intros k. destruct (decide (k = "down_payment")) as [->|Hk].
    - by rewrite !lookup_insert_eq.
    - rewrite !lookup_insert_ne by done. by apply H. }
  by rewrite Heq.
Qed.

Lemma getMortgage_ignores_supplied_down_payment_witness :
  getMortgage (mkMortgageModel (<["down_payment" := 40000]> (model_financing example_model)))
    (PyInt 200000) example_restrictions
  = getMortgage example_model (PyInt 200000) example_restrictions.
Proof.
  apply (getMortgage_ignores_supplied_down_payment
           (mkMortgageModel (<["down_payment" := 40000]> (model_financing example_model)))
           example_model).
  intros k Hk. cbn [model_financing]. by apply lookup_insert_ne.
Defined.

(** ** More on getMortgage *)

Lemma loadRestrictions_union r r' :
  loadRestrictions r = Ok r' → r' = r ∪ restriction_defaults.
Proof.
  unfold loadRestrictions. intros H.
  destruct (negb (contains r "savings")); [done|].
  inv_bind H. destruct (Qltb x 10000); [done|].
  destruct (_ && _); [done|]. apply Ok_inj in H. subst r'.
  apply restriction_defaults_union.
Qed.

(** X5.  A valid Mortgage returned by [getMortgage] is built for the home
    value asked for, and its asset holds exactly [current_value] (that home
    value), [tax_rate] and [hoa], the last two taken from the loaded
    restrictions: 0.0125 and 0 when the restrictions do not give them.  The
    constructor's own defaults (a tax rate of 0.01) never apply to it. *)
Theorem getMortgage_asset_from_restrictions self h r m :
  getMortgage self h r = Ok m →
  isValid m = true →
  home_value m = h
  ∧ ∃ tax hoa,
      asset m = <["current_value" := to_Q h]> (<["tax_rate" := tax]> (<["hoa" := hoa]> ∅))
      ∧ (r ∪ restriction_defaults) !! "tax_rate" = Some tax
      ∧ (r ∪ restriction_defaults) !! "hoa" = Some hoa
      ∧ (r !! "tax_rate" = None → tax = 125 # 10000)
      ∧ (r !! "hoa" = None → hoa = 0).
Proof.
  unfold getMortgage. intros H Hv.
  do 5 inv_bind H. cbn zeta in H.
  destruct (Qltb _ 0). { apply Ok_inj in H. by subst m. }
  do 2 inv_bind H. apply Ok_inj in H. subst m.
  split; [done|]. exists x4, x5.
  apply loadRestrictions_union in Hx0. subst x0.
  apply getitem_Ok in Hx4, Hx5.
  split. { unfold Mortgage_init. cbn [asset]. apply asset_defaults_full; by eexists. }
  split; [done|]. split; [done|]. split.
  - intros Hn. rewrite (lookup_union_r _ _ _ Hn) in Hx4.
    assert (Hd : restriction_defaults !! "tax_rate" = Some (125 # 10000)) by reflexivity.
    congruence.
  - intros Hn. rewrite (lookup_union_r _ _ _ Hn) in Hx5.
    assert (Hd : restriction_defaults !! "hoa" = Some 0) by reflexivity.
    congruence.
Qed.

Lemma getMortgage_asset_from_restrictions_witness :
  home_value mortgage_15y = PyInt 200000
  ∧ ∃ tax hoa,
      asset mortgage_15y
      = <["current_value" := to_Q (PyInt 200000)]> (<["tax_rate" := tax]> (<["hoa" := hoa]> ∅))
      ∧ (example_restrictions ∪ restriction_defaults) !! "tax_rate" = Some tax
      ∧ (example_restrictions ∪ restriction_defaults) !! "hoa" = Some hoa
      ∧ (example_restrictions !! "tax_rate" = None → tax = 125 # 10000)
      ∧ (example_restrictions !! "hoa" = None → hoa = 0).
Proof.
  apply (getMortgage_asset_from_restrictions model_15y (PyInt 200000)
           example_restrictions mortgage_15y); reflexivity.
Defined.

(** X7.  [getMortgage] never raises [KeyError]: every key it reads has been
    checked or given a default by the two loaders.  When it raises, it is a
    [ValueError] of a loader, or the division by [closing_cost - 1] for a
    closing-cost rate of 1. *)
Theorem getMortgage_never_KeyError self h r e :
  getMortgage self h r = Raise e →
  is_ValueError e
  ∨ (e = ZeroDivisionError
     ∧ ∃ fin c, loadFinancing self = Ok fin ∧ fin !! "closing_cost" = Some c ∧ c == 1).
Proof.
  unfold getMortgage. intros H.
  apply bind_Raise in H as [H|(fin & Hfin & H)].
  { left. by apply loadFinancing_Raise in H as [H _]. }
  apply bind_Raise in H as [H|(r' & Hr & H)].
  { left. by apply loadRestrictions_Raise in H as [H _]. }
  pose proof (loadRestrictions_Ok _ _ Hr)
    as (s & _ & Hs & _ & _ & _ & _ & [hoa Hhoa] & [tax Htax]).
  pose proof (loadFinancing_Ok _ _ Hfin) as (_ & _ & [c Hc] & _).
  apply getitem_Ok in Hs, Hhoa, Htax. pose proof Hc as Hc'. apply getitem_Ok in Hc'.
  rewrite Hs, bind_Ok_l, Hc', bind_Ok_l in H.
  apply bind_Raise in H as [H|(q & _ & H)].
  { apply truediv_Raise in H as [-> H]. right. split; [done|].
    exists fin, c. split; [done|]. split; [done|]. lra. }
  cbn zeta in H. destruct (Qltb _ 0); [done|].
  by rewrite Htax, bind_Ok_l, Hhoa, bind_Ok_l in H.
Qed.

Lemma getMortgage_never_KeyError_witness :
  is_ValueError (ValueError "'interest_rate' value is required in the financing argument.")
  ∨ (ValueError "'interest_rate' value is required in the financing argument."
     = ZeroDivisionError
     ∧ ∃ fin c, loadFinancing model_without_rate = Ok fin
                ∧ fin !! "closing_cost" = Some c ∧ c == 1).
Proof.
  apply (getMortgage_never_KeyError model_without_rate (PyInt 200000) example_restrictions).
  reflexivity.
Defined.

(** ** More on cost and PMI *)

Lemma pmi_nonneg mortgage_size percent_down :
  0 <= mortgage_size → 0 <= pmi mortgage_size percent_down.
Proof. intros H. unfold pmi. repeat case_match; nra. Qed.

Lemma pmi_le_top mortgage_size percent_down :
  0 <= mortgage_size → pmi mortgage_size percent_down <= mortgage_size * (98 # 10000).
Proof. intros H. unfold pmi. repeat case_match; nra. Qed.

(** X10.  The annual PMI of a mortgage that is not negative lies between 0
    and 0.98% of the mortgage, whatever the percent down, and below 5% down
    it is exactly [mortgage_size * 0.0098]. *)
Theorem pmi_bounds :
  (∀ mortgage_size percent_down,
      0 <= mortgage_size →
      0 <= pmi mortgage_size percent_down
      ∧ pmi mortgage_size percent_down <= mortgage_size * (98 # 10000))
  ∧ (∀ mortgage_size percent_down,
      percent_down < (5 # 100) →
      pmi mortgage_size percent_down = mortgage_size * (98 # 10000)).
Proof.
  split.
  - intros ms p H. split; [by apply pmi_nonneg|by apply pmi_le_top].
  - intros ms p H. unfold pmi.
    assert (H1 : Qgeb p (2 # 10) = false) by (apply Qgeb_false; lra).
    assert (H2 : Qgeb p (15 # 100) = false) by (apply Qgeb_false; lra).
    assert (H3 : Qgeb p (1 # 10) = false) by (apply Qgeb_false; lra).
    assert (H4 : Qgeb p (5 # 100) = false) by (by apply Qgeb_false).
    by rewrite H1, H2, H3, H4.
Qed.

Lemma pmi_bounds_witness :
  (0 <= pmi 200000 (7 # 100) ∧ pmi 200000 (7 # 100) <= 200000 * (98 # 10000))
  ∧ pmi 200000 (3 # 100) = 200000 * (98 # 10000).
Proof.
  destruct pmi_bounds as (Hb & Htop).
  split.
  - apply Hb. discriminate.
  - apply Htop. reflexivity.
Defined.

Lemma cost_Ok_inv self b :
  is_ (home_value self) 0 = false →
  cost self = Ok b →
  ∃ cv dp c ir tax hoa,
    asset self !! "current_value" = Some cv
    ∧ financing self !! "down_payment" = Some dp
    ∧ financing self !! "closing_cost" = Some c
    ∧ financing self !! "interest_rate" = Some ir
    ∧ asset self !! "tax_rate" = Some tax
    ∧ asset self !! "hoa" = Some hoa
    ∧ ¬ cv == 0
    ∧ b !! "initial_cost" = Some ((cv - dp) * c + dp)
    ∧ b !! "closing_cost" = Some ((cv - dp) * c + dp - dp)
    ∧ b !! "down_payment_cost" = Some dp
    ∧ b !! "percent_down" = Some (dp / cv)
    ∧ b !! "mortgage_size" = Some (cv - dp)
    ∧ b !! "mortgage_payment" = Some (Qabs (pmt (ir / 12) (12 * 30) (cv - dp)))
    ∧ b !! "pmi_payment" = Some (pmi (cv - dp) (dp / cv) / 12)
    ∧ b !! "tax_payment" = Some (cv * tax / 12)
    ∧ b !! "insurance_payment" = Some ((35 # 10000) * cv / 12)
    ∧ b !! "hoa" = Some hoa
    ∧ b !! "monthly_payment"
      = Some (Qabs (pmt (ir / 12) (12 * 30) (cv - dp)) + pmi (cv - dp) (dp / cv) / 12
              + cv * tax / 12 + (35 # 10000) * cv / 12 + hoa).
Proof.
  intros Hnz H. unfold cost in H. rewrite Hnz in H.
  do 7 inv_bind H. apply Ok_inj in H. subst b.
  apply getitem_Ok in Hx, Hx0, Hx1, Hx3, Hx4, Hx5. apply truediv_Ok in Hx2 as [Hcv ->].
  match goal with
  | |- context [<["initial_cost" := ?ic]> (<["closing_cost" := ?cc]>
         (<["down_payment_cost" := ?dp]> (<["percent_down" := ?pd]>
         (<["mortgage_size" := ?ms]> (<["mortgage_payment" := ?mp]>
         (<["pmi_payment" := ?pmi]> (<["tax_payment" := ?tax]>
         (<["insurance_payment" := ?ins]> (<["hoa" := ?hoa]>
         (<["monthly_payment" := ?mon]> ∅))))))))))] =>
      destruct (breakdown_lookups ic cc dp pd ms mp pmi tax ins hoa mon)
        as (L1 & L2 & L3 & L4 & L5 & L6 & L7 & L8 & L9 & L10 & L11)
  end.
  exists x, x0, x1, x3, x4, x5.
  do 6 (split; [done|]). split; [exact Hcv|].
  split; [exact L1|]. split; [exact L2|]. split; [exact L3|]. split; [exact L4|].
  split; [exact L5|]. split; [exact L6|]. split; [exact L7|]. split; [exact L8|].
  split; [exact L9|]. split; [exact L10|]. exact L11.
Qed.

(** X8.  [cost()] reads the home value of the Mortgage only for the test
    [is 0]; the home it prices is [asset["current_value"]].  Two Mortgages
    with the same financing and asset whose home values are both not the int
    0 have the same cost, breakdown or exception, whatever those home values
    are; and the breakdown's [down_payment_cost] and [hoa] are the
    financing's [down_payment] and the asset's [hoa], unchanged. *)
Theorem cost_ignores_home_value hv hv' fin a :
  is_ hv 0 = false →
  is_ hv' 0 = false →
  cost (mkMortgage hv' fin a) = cost (mkMortgage hv fin a)
  ∧ (∀ breakdown,
       cost (mkMortgage hv fin a) = Ok breakdown →
       breakdown !! "down_payment_cost" = fin !! "down_payment"
       ∧ breakdown !! "hoa" = a !! "hoa").
Proof.
  intros Hhv Hhv'. split.
  - unfold cost. cbn [home_value financing asset]. by rewrite Hhv, Hhv'.
  - intros b H.
    destruct (cost_Ok_inv (mkMortgage hv fin a) b Hhv H)
      as (cv & dp & c & ir & tax & hoa & _ & H2 & _ & _ & _ & H6 & _
          & _ & _ & L3 & _ & _ & _ & _ & _ & _ & L10 & _).
    cbn [financing asset] in H2, H6. by rewrite L3, L10, H2, H6.
Qed.

Lemma cost_ignores_home_value_witness :
  cost (mkMortgage (PyInt 1) (financing example_mortgage) (asset example_mortgage))
  = cost (mkMortgage (PyInt 200000) (financing example_mortgage) (asset example_mortgage))
  ∧ (∀ breakdown,
       cost (mkMortgage (PyInt 200000) (financing example_mortgage) (asset example_mortgage))
       = Ok breakdown →
       breakdown !! "down_payment_cost" = financing example_mortgage !! "down_payment"
       ∧ breakdown !! "hoa" = asset example_mortgage !! "hoa").
Proof.
  apply (cost_ignores_home_value (PyInt 200000) (PyInt 1)); reflexivity.
Defined.



(** ** The constructor on shared and distinct objects *)

(** X11.  On distinct dictionary objects the constructor builds the
    Mortgage that [Mortgage_init] describes: home value, the financing as
    given and the asset completed with the defaults.  When one object is
    passed both as [financing] and as [asset], the financing of the new
    Mortgage has received the asset defaults too. *)
Theorem Mortgage_new_refines_init hv f a (h : heap) fd ad :
  h !! f = Some fd →
  h !! a = Some ad →
  let r := Mortgage_new (Some hv) (Some f) (Some a) h in
  (f ≠ a → deref r.2 r.1 = Some (Mortgage_init hv fd ad))
  ∧ (f = a →
     deref r.2 r.1
     = Some (mkMortgage hv (asset_defaults hv ad) (asset_defaults hv ad))).
Proof.
  intros Hf Ha r. unfold r, Mortgage_new, deref.
  cbn [fst snd default from_option id obj_asset obj_financing obj_home_value].
  split.
  - intros Hne. rewrite (lookup_alter_ne _ _ a f) by congruence.
    by rewrite Hf, lookup_alter_eq, Ha.
  - intros ->. by rewrite lookup_alter_eq, Ha.
Qed.

Lemma Mortgage_new_refines_init_witness :
  let r := Mortgage_new (Some (PyInt 100)) (Some default_financing) (Some default_asset) heap0 in
  (default_financing ≠ default_asset →
   deref r.2 r.1 = Some (Mortgage_init (PyInt 100) ∅ ∅))
  ∧ (default_financing = default_asset →
     deref r.2 r.1
     = Some (mkMortgage (PyInt 100) (asset_defaults (PyInt 100) ∅)
               (asset_defaults (PyInt 100) ∅))).
Proof.
  apply (Mortgage_new_refines_init (PyInt 100) default_financing default_asset heap0 ∅ ∅);
    reflexivity.
Defined.

(** ** The model of numpy.arange *)

Lemma Qred_eq (q : Q) : Qred q == q.
Proof. apply Qred_correct. Qed.

Lemma arange_unfold start stop step :
  arange start stop step
  = map (λ i : nat, Qred (start + inject_Z (Z.of_nat i) * step))
        (seq 0 (Z.to_nat (Qceiling ((stop - start) / step)))).
Proof. reflexivity. Qed.

Lemma arange_index_lt start stop step (i : nat) :
  0 < step →
  (i < Z.to_nat (Qceiling ((stop - start) / step)))%nat →
  start + inject_Z (Z.of_nat i) * step < stop.
Proof.
  intros Hstep Hi.
  assert (Hz : (Z.of_nat i <= Qceiling ((stop - start) / step) - 1)%Z) by lia.
  rewrite Zle_Qle in Hz.
  pose proof (Qceiling_lt ((stop - start) / step)) as Hc.
  assert (Hlt : inject_Z (Z.of_nat i) < (stop - start) / step) by lra.
  apply (Qmult_lt_compat_r _ _ step) in Hlt; [|done].
  assert (E : (stop - start) / step * step == stop - start) by (field; lra).
  rewrite E in Hlt. lra.
Qed.

Lemma arange_Forall (P : Q → Prop) start stop step :
  (∀ i : nat, (i < Z.to_nat (Qceiling ((stop - start) / step)))%nat →
              P (Qred (start + inject_Z (Z.of_nat i) * step))) →
  Forall P (arange start stop step).
Proof.
  intros H. rewrite arange_unfold. apply Forall_map, Forall_forall.
  intros i Hi. apply elem_of_seq in Hi. apply H. lia.
Qed.

Lemma map_seq_sorted (f : nat → Q) k n :
  (∀ i j : nat, (i < j)%nat → f i < f j) →
  StronglySorted Qlt (map f (seq k n)).
Proof.
  intros Hf. revert k. induction n as [|n IH]; intros k; [constructor|].
  cbn [seq map]. constructor; [apply IH|].
  apply Forall_map, Forall_forall. intros i Hi. apply elem_of_seq in Hi.
  apply Hf. lia.
Qed.

(** ** Passes that accept their first candidate *)

Lemma optimize_with_loaded sweep fuel self r r' lb ub step :
  loadRestrictions r = Ok r' →
  optimize_with sweep fuel self r lb ub step
  = optimize_with sweep fuel self r' lb ub step.
Proof.
  intros Hr. pose proof (loadRestrictions_idem _ _ Hr) as Hr'.
  destruct fuel as [|fuel]; [done|]. cbn [optimize_with]. by rewrite Hr, Hr'.
Qed.

Lemma getMortgage_Ok_inv self h r m :
  getMortgage self h r = Ok m →
  ∃ fin c r' s,
    loadFinancing self = Ok fin ∧ fin !! "closing_cost" = Some c ∧ ¬ c == 1
    ∧ loadRestrictions r = Ok r' ∧ r' !! "savings" = Some s.
Proof.
  unfold getMortgage. intros H. do 5 inv_bind H.
  apply getitem_Ok in Hx1, Hx2. apply truediv_Ok in Hx3 as [Hne _].
  exists x, x2, x0, x1. do 2 (split; [done|]).
  split; [intros E; apply Hne; lra|]. done.
Qed.

Lemma selected_has_monthly self r j best :
  selected self r j best → is_Some (bv_cost best !! "monthly_payment").
Proof. intros (_ & _ & _ & _ & (mp & ? & ? & ? & ? & ? & Hmp & _)). eauto. Qed.

Lemma best_value0_has_monthly : is_Some (bv_cost best_value0 !! "monthly_payment").
Proof. by exists 0. Qed.

Lemma inner_loop_nonempty self r j l st :
  l ≠ [] → inner_loop self r j l st = sweep_body self r j st.
Proof. destruct l as [|i l]; [done|]. intros _. apply inner_loop_cons. Qed.

Section Descent.

Variables (sweep : list Q) (self : MortgageModel) (r fin : dict) (c s : Q).
Hypothesis Hsweep : sweep ≠ [].
Hypothesis Hfin : loadFinancing self = Ok fin.
Hypothesis Hc : fin !! "closing_cost" = Some c.
Hypothesis Hc1 : ¬ c == 1.
Hypothesis Hr : loadRestrictions r = Ok r.
Hypothesis Hs : r !! "savings" = Some s.

Lemma sweep_body_total j best found :
  is_Some (bv_cost best !! "monthly_payment") →
  ∃ st, sweep_body self r j (best, found) = Ok st.
Proof.
  intros [bmp Hbmp]. unfold sweep_body. cbn [fst].
  destruct (getMortgage_branches self (Boxed j) r fin r c s Hfin Hr Hc Hs Hc1)
    as (tax & hoa & Htax & Hhoa & Hget).
  rewrite Hget, bind_Ok_l. destruct (Qltb _ 0).
  { change (isValid (Mortgage_init (PyInt 0) ∅ ∅)) with false. by eexists. }
  destruct (isValid _) eqn:Hv; cbn [negb]; [|by eexists].
  unfold isValid, Qgtb in Hv. cbn [home_value Mortgage_init to_Q] in Hv.
  apply Qltb_lt in Hv.
  pose proof (loadFinancing_Ok _ _ Hfin) as ([ir Hir] & Hir' & _).
  rewrite <- Hir' in Hir.
  pose proof (loadRestrictions_Ok _ _ Hr) as (s' & _ & _ & _ & _ & [mmp Hmmp] & [mm Hmm] & _).
  match goal with
  | |- context [cost (Mortgage_init ?h (<["down_payment" := ?d]> fin) ?a)] =>
      destruct (cost_priced h fin d tax hoa c ir) as (b & Hb & Hms & Hic & Hmp);
        [cbn [to_Q]; intros E; rewrite E in Hv; by apply Qlt_irrefl in Hv|done|done|]
  end.
  rewrite Hb, bind_Ok_l.
  apply getitem_Ok in Hms, Hic, Hmp, Hmmp, Hmm, Hbmp. pose proof Hs as Hs'.
  apply getitem_Ok in Hs'.
  rewrite Hmp, bind_Ok_l, Hmmp, bind_Ok_l, Hic, bind_Ok_l, Hs', bind_Ok_l,
    Hms, bind_Ok_l, Hmm, bind_Ok_l, Hbmp, bind_Ok_l.
  repeat case_match; by eexists.
Qed.

Lemma selected_positive j best : selected self r j best → 0 < j.
Proof.
  intros (_ & Hg & Hv & _).
  destruct (getMortgage_branches self (Boxed j) r fin r c s Hfin Hr Hc Hs Hc1)
    as (tax & hoa & _ & _ & Hget).
  rewrite Hget in Hg. apply Ok_inj in Hg. rewrite <- Hg in Hv.
  destruct (Qltb _ 0); [done|].
  unfold isValid, Qgtb in Hv. cbn [home_value Mortgage_init to_Q] in Hv.
  by apply Qltb_lt in Hv.
Qed.

Lemma sweep_body_first j best :
  selected self r j best →
  sweep_body self r j (best_value0, false) = Ok (best, true).
Proof.
  intros Hsel. pose proof (selected_positive _ _ Hsel) as Hpos.
  destruct Hsel as (Hj & Hg & Hv & Hcost & Hw).
  destruct Hw as (mp & mmp & ic & s' & ms & mm & H1 & H2 & H3 & H4 & H5 & H6 & L1 & L2 & L3).
  unfold sweep_body. cbn [fst]. rewrite Hg, bind_Ok_l, Hv. cbn [negb].
  rewrite Hcost, bind_Ok_l.
  apply getitem_Ok in H1, H2, H3, H4, H5, H6.
  rewrite H1, bind_Ok_l, H2, bind_Ok_l, H3, bind_Ok_l, H4, bind_Ok_l,
    H5, bind_Ok_l, H6, bind_Ok_l.
  change (getitem (bv_cost best_value0) "monthly_payment") with (Ok 0 : res Q).
  rewrite bind_Ok_l.
  apply Qle_bool_iff in L1, L2. apply Qltb_false in L3.
  unfold Qgtb at 1. rewrite L3, L1, L2. cbn [andb orb].
  change (to_Q (bv_value best_value0)) with 0.
  unfold Qgtb. apply Qltb_lt in Hpos. rewrite Hpos.
  destruct best as [bv bm bc]. cbn in *. by subst.
Qed.

Lemma outer_loop_level js best ub v :
  selected self r v best →
  StronglySorted Qlt (v :: js) →
  Forall (λ j, j < to_Q ub) js →
  v < to_Q ub →
  ∃ best' ub' v',
    outer_loop sweep self r js best ub = Ok (best', ub')
    ∧ selected self r v' best'
    ∧ v <= v' ∧ v' < to_Q ub' ∧ to_Q ub' <= to_Q ub
    ∧ (v' = v ∨ In v' js).
Proof.
  revert best v. induction js as [|j js IH]; intros best v Hsel Hsort Hall Hlt.
  { exists best, ub, v. cbn [outer_loop].
    split; [done|]. split; [done|]. split; [lra|]. split; [done|].
    split; [lra|by left]. }
  apply StronglySorted_inv in Hsort as [Hsort Hv].
  apply Forall_cons in Hv as [Hvj Hv]. apply Forall_cons in Hall as [Hj Hall].
  cbn [outer_loop]. rewrite inner_loop_nonempty by done.
  destruct (sweep_body_total j best false) as [[b1 f1] Hb].
  { by eapply selected_has_monthly. }
  rewrite Hb, bind_Ok_l. cbn [fst snd].
  apply sweep_body_update in Hb as [[-> ->]|(-> & _ & Hsel1)].
  - cbn [negb]. exists best, (Boxed j), v. cbn [to_Q].
    split; [done|]. split; [done|]. split; [lra|]. split; [done|].
    split; [lra|by left].
  - cbn [negb]. destruct (IH b1 j Hsel1 Hsort Hall Hj)
      as (best' & ub' & v' & Ho & Hsel' & Hle & Hlt' & Hub & Hin).
    exists best', ub', v'. split; [done|]. split; [done|].
    split; [lra|]. split; [done|]. split; [done|].
    right. destruct Hin as [->|Hin]; [by left|by right].
Qed.

Lemma level_pass v ub step :
  (∃ b, selected self r (Qred v) b) →
  v < to_Q ub → 0 < step →
  ∃ best' ub' v',
    outer_loop sweep self r (arange v (to_Q ub) step) best_value0 ub = Ok (best', ub')
    ∧ selected self r v' best'
    ∧ Qred v' = v'
    ∧ v <= v' ∧ v' < to_Q ub' ∧ to_Q ub' <= to_Q ub.
Proof.
  intros [b Hsel] Hlt Hstep.
  assert (Hsorted : StronglySorted Qlt (arange v (to_Q ub) step)).
  { rewrite arange_unfold. apply map_seq_sorted. intros i j Hij.
    rewrite !Qred_eq. apply inj_lt in Hij. rewrite Zlt_Qlt in Hij. nra. }
  assert (Hbelow : Forall (λ j, j < to_Q ub) (arange v (to_Q ub) step)).
  { apply arange_Forall. intros i Hi. rewrite Qred_eq. by apply arange_index_lt. }
  assert (Hcan : Forall (λ j, Qred j = j) (arange v (to_Q ub) step)).
  { apply arange_Forall. intros i Hi. apply Qred_complete, Qred_correct. }
  destruct (arange_cons v (to_Q ub) step Hlt Hstep) as [js Hjs].
  rewrite Hjs in *.
  apply Forall_cons in Hbelow as [Hv Hbelow]. apply Forall_cons in Hcan as [Hcv Hcan].
  cbn [outer_loop]. rewrite inner_loop_nonempty by done.
  rewrite (sweep_body_first _ _ Hsel), bind_Ok_l. cbn [fst snd negb].
  destruct (outer_loop_level js b ub (Qred v) Hsel Hsorted Hbelow Hv)
    as (best' & ub' & v' & Ho & Hsel' & Hle & Hlt' & Hub & Hin).
  exists best', ub', v'. split; [done|]. split; [done|].
  split.
  { destruct Hin as [->|Hin]; [done|].
    rewrite List.Forall_forall in Hcan. by apply Hcan. }
  split; [|done]. rewrite Qred_eq in Hle. done.
Qed.
End Descent.

(** ** Levels of the search *)

Section Levels.

Variables (sweep : list Q) (self : MortgageModel) (r fin : dict) (c s : Q).
Hypothesis Hsweep : sweep ≠ [].
Hypothesis Hfin : loadFinancing self = Ok fin.
Hypothesis Hc : fin !! "closing_cost" = Some c.
Hypothesis Hc1 : ¬ c == 1.
Hypothesis Hr : loadRestrictions r = Ok r.
Hypothesis Hs : r !! "savings" = Some s.

Lemma outer_loop_total js best ub :
  is_Some (bv_cost best !! "monthly_payment") →
  ∃ best' ub',
    outer_loop sweep self r js best ub = Ok (best', ub')
    ∧ is_Some (bv_cost best' !! "monthly_payment").
Proof.
  revert best. induction js as [|j js IH]; intros best Hb; [by exists best, ub|].
  cbn [outer_loop]. rewrite inner_loop_nonempty by done.
  destruct (sweep_body_total self r fin c s Hfin Hc Hc1 Hr Hs j best false Hb)
    as [[b1 f1] Hb1].
  rewrite Hb1, bind_Ok_l. cbn [fst snd].
  assert (Hm : is_Some (bv_cost b1 !! "monthly_payment")).
  { apply sweep_body_update in Hb1 as [[-> _]|(_ & _ & Hsel)]; [done|].
    by eapply selected_has_monthly. }
  destruct (negb f1); [by exists b1, (Boxed j)|by apply IH].
Qed.

Lemma optimize_with_no_exception fuel lb ub step e :
  optimize_with sweep fuel self r lb ub step ≠ Some (Raise e).
Proof.
  revert lb ub step. induction fuel as [|fuel IH]; intros lb ub step; [done|].
  cbn [optimize_with]. pose proof Hs as Hs'. apply getitem_Ok in Hs'. rewrite Hr, Hs'.
  destruct (if is_ lb 0 then _ else _) as [[lb' ub'] step'].
  match goal with
  | |- context [outer_loop sweep self r ?js best_value0 ?u] =>
      destruct (outer_loop_total js best_value0 u best_value0_has_monthly)
        as (best' & ub'' & -> & _)
  end.
  destruct (is_ _ 1); [done|apply IH].
Qed.

Lemma optimize_level v ub step :
  (∃ b, selected self r (Qred v) b) →
  v < to_Q ub →
  ∃ best' ub' v',
    selected self r v' best'
    ∧ Qred v' = v'
    ∧ v <= v' ∧ v' < to_Q ub' ∧ to_Q ub' <= to_Q ub
    ∧ ∀ fuel,
        optimize_with sweep (S fuel) self r (Boxed v) ub step
        = if Qltb (to_Q step) 50 then Some (Ok (bv_mortgage best'))
          else optimize_with sweep fuel self r (Boxed v') ub' (Boxed (to_Q step / 2)).
Proof.
  intros Hsel Hlt. pose proof Hs as Hs'. apply getitem_Ok in Hs'.
  destruct (Qltb (to_Q step) 50) eqn:Hstep.
  - destruct (level_pass sweep self r fin c s Hsweep Hfin Hc Hc1 Hr Hs v ub 1 Hsel Hlt)
      as (best' & ub' & v' & Ho & Hsel' & Hcan & Hle & Hlt' & Hub); [reflexivity|].
    exists best', ub', v'. do 5 (split; [done|]).
    intros fuel. cbn [optimize_with]. rewrite Hr, Hs'. cbn [is_]. rewrite Hstep.
    change (to_Q (PyInt 1)) with 1. cbn [to_Q]. by rewrite Ho.
  - assert (Hpos : 0 < to_Q step) by (apply Qltb_false in Hstep; lra).
    destruct (level_pass sweep self r fin c s Hsweep Hfin Hc Hc1 Hr Hs v ub (to_Q step)
                Hsel Hlt Hpos)
      as (best' & ub' & v' & Ho & Hsel' & Hcan & Hle & Hlt' & Hub).
    exists best', ub', v'. do 5 (split; [done|]).
    intros fuel. cbn [optimize_with]. rewrite Hr, Hs'. cbn [is_]. rewrite Hstep.
    cbn [to_Q]. rewrite Ho.
    assert (H1 : is_ step 1 = false).
    { destruct step as [z|q]; [|done]. cbn. destruct (Z.eqb_spec z 1) as [->|]; [|done].
      by vm_compute in Hstep. }
    rewrite H1. by destruct Hsel' as (-> & _).
Qed.

Lemma optimize_descent (n : nat) v ub step :
  (∃ b, selected self r (Qred v) b) →
  v < to_Q ub →
  (∀ i : nat, (i < n)%nat → Qltb (Nat.iter i (λ q, q / 2) (to_Q step)) 50 = false) →
  Qltb (Nat.iter n (λ q, q / 2) (to_Q step)) 50 = true →
  ∃ best' v',
    selected self r v' best'
    ∧ v <= v' ∧ v' < to_Q ub
    ∧ (∀ k : nat, optimize_with sweep (S n + k) self r (Boxed v) ub step
                  = Some (Ok (bv_mortgage best')))
    ∧ optimize_with sweep n self r (Boxed v) ub step = None.
Proof.
  revert v ub step. induction n as [|n IH]; intros v ub step Hsel Hlt Hbig Hsmall.
  - change (Qltb (to_Q step) 50 = true) in Hsmall.
    destruct (optimize_level v ub step Hsel Hlt)
      as (best' & ub' & v' & Hsel' & _ & Hle & Hlt' & Hub & E).
    exists best', v'. split; [done|]. split; [done|]. split; [lra|].
    split; [|done]. intros k. cbn [Nat.add]. by rewrite E, Hsmall.
  - destruct (optimize_level v ub step Hsel Hlt)
      as (best' & ub' & v' & Hsel' & Hcan & Hle & Hlt' & Hub & E).
    pose proof (Hbig 0%nat ltac:(lia)) as H0.
    change (Qltb (to_Q step) 50 = false) in H0.
    destruct (IH v' ub' (Boxed (to_Q step / 2))) as (best'' & v'' & Hsel'' & Hle' & Hlt'' & E1 & E2).
    + rewrite Hcan. by exists best'.
    + done.
    + intros i Hi. pose proof (Hbig (S i) ltac:(lia)) as Hi'.
      rewrite Nat.iter_succ_r in Hi'. exact Hi'.
    + rewrite Nat.iter_succ_r in Hsmall. exact Hsmall.
    + exists best'', v''. split; [done|]. split; [lra|]. split; [lra|]. split.
      * intros k. change (S (S n) + k)%nat with (S (S n + k)). by rewrite E, H0, E1.
      * by rewrite E, H0, E2.
Qed.

End Levels.

(** X12.  With accepted restrictions, financing that has [interest_rate]
    and a closing-cost rate other than 1, the search raises neither
    [KeyError] nor [ZeroDivisionError], whatever the bounds, the step and the
    number of nested calls: every key that the loop body reads from the
    restrictions, the financing, the asset, the cost breakdown and the
    best-so-far record is present, and a home is priced only when its value
    is positive.  (The search may still restart for ever, and
    [numpy.arange] may refuse an oversized range.) *)
Theorem optimize_raises_no_KeyError self r fin c :
  loadFinancing self = Ok fin →
  fin !! "closing_cost" = Some c →
  ¬ c == 1 →
  ¬ rejected_restrictions r →
  ∀ fuel lb ub step,
    (∀ k, optimizeTotalHomeValue fuel self r lb ub step ≠ Some (Raise (KeyError k)))
    ∧ optimizeTotalHomeValue fuel self r lb ub step ≠ Some (Raise ZeroDivisionError).
Proof.
  intros Hfin Hc Hc1 Hr fuel lb ub step.
  apply loadRestrictions_accepts in Hr as [r' Hr].
  pose proof (loadRestrictions_Ok _ _ Hr) as (s & _ & Hs & _).
  assert (H : ∀ e, optimizeTotalHomeValue fuel self r lb ub step ≠ Some (Raise e)).
  { intros e. unfold optimizeTotalHomeValue.
    rewrite (optimize_with_loaded _ _ _ _ _ _ _ _ Hr).
    eapply optimize_with_no_exception;
      eauto using percent_sweep_nonempty, loadRestrictions_idem. }
  split; [intros k|]; apply H.
Qed.

Lemma optimize_raises_no_KeyError_witness :
  loadFinancing example_model = Ok example_loaded_financing
  ∧ ∀ fuel lb ub step,
      (∀ k, optimizeTotalHomeValue fuel example_model example_restrictions lb ub step
            ≠ Some (Raise (KeyError k)))
      ∧ optimizeTotalHomeValue fuel example_model example_restrictions lb ub step
        ≠ Some (Raise ZeroDivisionError).
Proof.
  split; [reflexivity|].
  apply (optimize_raises_no_KeyError example_model example_restrictions
           example_loaded_financing (5 # 100)).
  - reflexivity.
  - reflexivity.
  - discriminate.
  - by apply (loadRestrictions_Ok_not_rejected _ example_loaded_restrictions).
Defined.

(** X13.  When the first candidate of the first call, the home worth
    exactly the savings, is accepted, the search terminates: it returns
    after exactly twelve nested calls (steps 100000, 50000, ..., 97.65625
    and finally 1), no fewer, and the Mortgage returned is valid, for a home
    worth at least the savings and less than 9999999, with a cost breakdown
    that respects the loaded restrictions. *)
Theorem optimize_terminates_when_savings_home_accepted self r r' s best :
  loadRestrictions r = Ok r' →
  r' !! "savings" = Some s →
  s < 9999999 →
  sweep_body self r' (Qred s) (best_value0, false) = Ok (best, true) →
  ∀ ub step,
  ∃ m v breakdown,
    (∀ k : nat, optimizeTotalHomeValue (12 + k) self r (PyInt 0) ub step = Some (Ok m))
    ∧ optimizeTotalHomeValue 11 self r (PyInt 0) ub step = None
    ∧ home_value m = Boxed v ∧ s <= v ∧ v < 9999999
    ∧ isValid m = true
    ∧ cost m = Ok breakdown
    ∧ within_restrictions r' breakdown.
Proof.
  intros Hr Hs Hlt Hfirst ub step.
  pose proof (loadRestrictions_idem _ _ Hr) as Hr'.
  assert (Hsel : selected self r' (Qred s) best).
  { by apply sweep_body_update in Hfirst as [[_ ?]|(_ & _ & ?)]. }
  pose proof Hsel as (_ & Hg & _).
  apply getMortgage_Ok_inv in Hg as (fin & c & _ & _ & Hfin & Hc & Hc1 & _).
  destruct (level_pass percent_sweep self r' fin c s percent_sweep_nonempty
              Hfin Hc Hc1 Hr' Hs s (PyInt 9999999) 100000)
    as (b0 & ub0 & v0 & Ho & Hsel0 & Hcan0 & Hle0 & Hlt0 & Hub0);
    [by exists best|done|done|].
  destruct (optimize_descent percent_sweep self r' fin c s percent_sweep_nonempty
              Hfin Hc Hc1 Hr' Hs 10 v0 ub0 (Boxed (100000 / 2)))
    as (b & v & Hselv & Hle & Hltv & E1 & E2).
  { rewrite Hcan0. by exists b0. }
  { done. }
  { intros i Hi. do 10 (destruct i as [|i]; [reflexivity|]). lia. }
  { reflexivity. }
  assert (E0 : ∀ fuel,
    optimizeTotalHomeValue (S fuel) self r (PyInt 0) ub step
    = optimize_with percent_sweep fuel self r' (Boxed v0) ub0 (Boxed (100000 / 2))).
  { intros fuel. unfold optimizeTotalHomeValue.
    change (to_Q (PyInt 9999999)) with 9999999 in Ho.
    rewrite (optimize_with_reset _ fuel _ _ _ _ (PyInt 0) ub step eq_refl Hr Hs), Ho.
    by destruct Hsel0 as (-> & _). }
  destruct Hselv as (Hv & Hgv & Hvalid & Hcost & Hw).
  exists (bv_mortgage b), v, (bv_cost b).
  split. { intros k. change (12 + k)%nat with (S (11 + k)). by rewrite E0, E1. }
  split. { by rewrite E0, E2. }
  assert (Hhome : home_value (bv_mortgage b) = Boxed v).
  { destruct (getMortgage_branches self (Boxed v) r' fin r' c s Hfin Hr' Hc Hs Hc1)
      as (tax & hoa & _ & _ & Hget).
    rewrite Hget in Hgv. apply Ok_inj in Hgv. rewrite <- Hgv in Hvalid |- *.
    by destruct (Qltb _ 0). }
  split; [done|]. split; [lra|]. split.
  { change (to_Q (PyInt 9999999)) with 9999999 in Hub0. lra. }
  done.
Qed.

Lemma optimize_terminates_when_savings_home_accepted_witness :
  loadRestrictions example_restrictions = Ok example_loaded_restrictions
  ∧ ∀ ub step,
    ∃ m v breakdown,
      (∀ k : nat, optimizeTotalHomeValue (12 + k) example_model example_restrictions
                    (PyInt 0) ub step = Some (Ok m))
      ∧ optimizeTotalHomeValue 11 example_model example_restrictions (PyInt 0) ub step = None
      ∧ home_value m = Boxed v ∧ 50000 <= v ∧ v < 9999999
      ∧ isValid m = true
      ∧ cost m = Ok breakdown
      ∧ within_restrictions example_loaded_restrictions breakdown.
Proof.
  split; [reflexivity|].
  apply (optimize_terminates_when_savings_home_accepted example_model example_restrictions
           example_loaded_restrictions 50000 first_accepted).
  - reflexivity.
  - reflexivity.
  - reflexivity.
  - vm_cast_no_check (@eq_refl _ (Ok (first_accepted, true) : res (best_value * bool))).
Defined.


(** ** Forward progress, the break and the step *)

(** X14.  A call whose lower bound [v] is an accepted candidate below the
    upper bound descends by halving: if [n] halvings are needed to bring
    the step below 50, the call returns a valid Mortgage after exactly
    [n + 1] nested calls, the last of which runs with step 1. *)
Theorem optimize_levels_by_halving self r r' v ub step best (n : nat) :
  loadRestrictions r = Ok r' →
  sweep_body self r' (Qred v) (best_value0, false) = Ok (best, true) →
  v < to_Q ub →
  (∀ i : nat, (i < n)%nat → 50 <= Nat.iter i (λ q, q / 2) (to_Q step)) →
  Nat.iter n (λ q, q / 2) (to_Q step) < 50 →
  ∃ m,
    (∀ k : nat, optimizeTotalHomeValue (S n + k) self r (Boxed v) ub step = Some (Ok m))
    ∧ optimizeTotalHomeValue n self r (Boxed v) ub step = None
    ∧ isValid m = true.
Proof.
  intros Hr Hfirst Hlt Hbig Hsmall.
  pose proof (loadRestrictions_idem _ _ Hr) as Hr'.
  pose proof (loadRestrictions_Ok _ _ Hr) as (s & _ & Hs & _).
  assert (Hsel : selected self r' (Qred v) best).
  { by apply sweep_body_update in Hfirst as [[_ ?]|(_ & _ & ?)]. }
  pose proof Hsel as (_ & Hg & _).
  apply getMortgage_Ok_inv in Hg as (fin & c & _ & _ & Hfin & Hc & Hc1 & _).
  destruct (optimize_descent percent_sweep self r' fin c s percent_sweep_nonempty
              Hfin Hc Hc1 Hr' Hs n v ub step)
    as (b & v' & Hselv & _ & _ & E1 & E2).
  { by exists best. }
  { done. }
  { intros i Hi. apply Qltb_false. by apply Hbig. }
  { by apply Qltb_lt. }
  exists (bv_mortgage b). unfold optimizeTotalHomeValue.
  split. { intros k. by rewrite (optimize_with_loaded _ _ _ _ _ _ _ _ Hr). }
  split. { by rewrite (optimize_with_loaded _ _ _ _ _ _ _ _ Hr). }
  by destruct Hselv as (_ & _ & Hv & _).
Qed.

Lemma optimize_levels_by_halving_witness :
  ∃ m,
    (∀ k : nat, optimizeTotalHomeValue (2 + k) example_model example_restrictions
                  (Boxed 50000) (PyInt 50100) (PyInt 50) = Some (Ok m))
    ∧ optimizeTotalHomeValue 1 example_model example_restrictions
        (Boxed 50000) (PyInt 50100) (PyInt 50) = None
    ∧ isValid m = true.
Proof.
  apply (optimize_levels_by_halving example_model example_restrictions
           example_loaded_restrictions 50000 (PyInt 50100) (PyInt 50) first_accepted 1).
  - reflexivity.
  - vm_cast_no_check (@eq_refl _ (Ok (first_accepted, true) : res (best_value * bool))).
  - reflexivity.
  - intros i Hi. destruct i as [|i]; [discriminate|lia].
  - reflexivity.
Defined.

Lemma sweep_body_monotone self r j best found best' found' :
  sweep_body self r j (best, found) = Ok (best', found') →
  (found = true → found' = true)
  ∧ to_Q (bv_value best) <= to_Q (bv_value best').
Proof.
  intros H. apply sweep_body_update in H as [[-> ->]|(-> & Hlt & Hsel)].
  - split; [done|lra].
  - split; [done|]. destruct Hsel as (-> & _). cbn [to_Q]. lra.
Qed.

Lemma inner_loop_monotone self r j l best found best' found' :
  inner_loop self r j l (best, found) = Ok (best', found') →
  (found = true → found' = true)
  ∧ to_Q (bv_value best) <= to_Q (bv_value best').
Proof.
  revert best found. induction l as [|i l IH]; intros best found.
  { cbn. intros H. simplify_eq. split; [done|lra]. }
  cbn [inner_loop]. intros H. inv_bind H. destruct x as [b1 f1].
  apply sweep_body_monotone in Hx as [H1 H2]. apply IH in H as [H3 H4].
  split; [tauto|lra].
Qed.

(** X15.  The loops only ever move forward: a pass of the loop body never
    resets [found_a_match] and never lowers the recorded best value, and so
    neither does the inner loop; the best value after the outer loop is at
    least the one it started with. *)
Theorem best_value_never_decreases self r :
  (∀ j best found best' found',
      sweep_body self r j (best, found) = Ok (best', found') →
      (found = true → found' = true)
      ∧ to_Q (bv_value best) <= to_Q (bv_value best'))
  ∧ (∀ j l best found best' found',
      inner_loop self r j l (best, found) = Ok (best', found') →
      (found = true → found' = true)
      ∧ to_Q (bv_value best) <= to_Q (bv_value best'))
  ∧ (∀ sweep js best ub best' ub',
      outer_loop sweep self r js best ub = Ok (best', ub') →
      to_Q (bv_value best) <= to_Q (bv_value best')).
Proof.
  split; [|split].
  - intros *. apply sweep_body_monotone.
  - intros *. apply inner_loop_monotone.
  - intros sweep js. induction js as [|j js IH]; intros best ub best' ub'.
    { cbn. intros H. simplify_eq. lra. }
    cbn [outer_loop]. intros H. inv_bind H. destruct x as [b1 f1].
    apply inner_loop_monotone in Hx as [_ Hle]. cbn [fst snd] in H.
    destruct (negb f1).
    + simplify_eq. done.
    + apply IH in H. lra.
Qed.

Lemma outer_loop_upper_bound sweep self r js best ub best' ub' :
  outer_loop sweep self r js best ub = Ok (best', ub') →
  ub' = ub ∨ ∃ j, In j js ∧ ub' = Boxed j.
Proof.
  revert best. induction js as [|j js IH]; intros best.
  { cbn. intros H. simplify_eq. by left. }
  cbn [outer_loop]. intros H. inv_bind H. destruct (negb x.2).
  - simplify_eq. right. exists j. split; [by left|done].
  - apply IH in H as [->|(j' & Hin & ->)]; [by left|].
    right. exists j'. split; [by right|done].
Qed.

(** X16.  The outer loop stops at the first candidate that is not
    accepted: the record is left as it was, [upper_bound] becomes that
    candidate and the candidates after it are not looked at.  A candidate
    that is accepted is recorded and the loop goes on.  When the loop ends,
    [upper_bound] is either unchanged or one of the candidates. *)
Theorem outer_loop_breaks_at_first_rejection sweep self r :
  sweep ≠ [] →
  (∀ j js best ub st,
      sweep_body self r j (best, false) = Ok st → st.2 = false →
      outer_loop sweep self r (j :: js) best ub = Ok (best, Boxed j))
  ∧ (∀ j js best ub st,
      sweep_body self r j (best, false) = Ok st → st.2 = true →
      bv_value st.1 = Boxed j
      ∧ outer_loop sweep self r (j :: js) best ub = outer_loop sweep self r js st.1 ub)
  ∧ (∀ js best ub best' ub',
      outer_loop sweep self r js best ub = Ok (best', ub') →
      ub' = ub ∨ ∃ j, In j js ∧ ub' = Boxed j).
Proof.
  intros Hsw. split; [|split].
  - intros j js best ub [b f] H Hf. cbn in Hf. subst f.
    rewrite (outer_loop_break _ _ _ _ _ _ _ _ Hsw H eq_refl). cbn [fst].
    by apply sweep_body_update in H as [[-> _]|(? & _)].
  - intros j js best ub [b f] H Hf. cbn in Hf. subst f. cbn [fst]. split.
    + by apply sweep_body_update in H as [[_ ?]|(_ & _ & (? & _))].
    + cbn [outer_loop]. by rewrite inner_loop_nonempty, H by done.
  - intros *. apply outer_loop_upper_bound.
Qed.

Lemma outer_loop_breaks_at_first_rejection_witness :
  (∀ j js best ub st,
      sweep_body example_model example_loaded_restrictions j (best, false) = Ok st →
      st.2 = false →
      outer_loop percent_sweep example_model example_loaded_restrictions (j :: js) best ub
      = Ok (best, Boxed j))
  ∧ (∀ j js best ub st,
      sweep_body example_model example_loaded_restrictions j (best, false) = Ok st →
      st.2 = true →
      bv_value st.1 = Boxed j
      ∧ outer_loop percent_sweep example_model example_loaded_restrictions (j :: js) best ub
        = outer_loop percent_sweep example_model example_loaded_restrictions js st.1 ub)
  ∧ (∀ js best ub best' ub',
      outer_loop percent_sweep example_model example_loaded_restrictions js best ub
      = Ok (best', ub') →
      ub' = ub ∨ ∃ j, In j js ∧ ub' = Boxed j).
Proof.
  apply (outer_loop_breaks_at_first_rejection percent_sweep example_model
           example_loaded_restrictions).
  apply percent_sweep_nonempty.
Defined.

(** X17.  Only a call with a step below 50 returns its own best: such a
    call, when its lower bound is not the int 0, runs with step 1 and never
    recurses, so one call settles it.  A call whose lower bound is the int
    0 (the step is then reset to 100000) or whose step is at least 50 never
    returns a Mortgage itself: it raises or recurses. *)
Theorem only_small_steps_return self r lb ub step :
  (is_ lb 0 = false → to_Q step < 50 →
   ∀ fuel, optimizeTotalHomeValue (S fuel) self r lb ub step
           = optimizeTotalHomeValue 1 self r lb ub step)
  ∧ (is_ lb 0 = true ∨ 50 <= to_Q step →
     ∀ m, optimizeTotalHomeValue 1 self r lb ub step ≠ Some (Ok m)).
Proof.
  unfold optimizeTotalHomeValue. split.
  - intros Hlb Hstep fuel. apply Qltb_lt in Hstep. cbn [optimize_with].
    destruct (loadRestrictions r) as [r'|e]; [|done].
    destruct (getitem r' "savings") as [s|e]; [|done].
    rewrite Hlb, Hstep. cbn [is_ Z.eqb Pos.eqb].
    by destruct (outer_loop _ _ _ _ _ _) as [[best ub']|e].
  - intros Hcase m. cbn [optimize_with].
    destruct (loadRestrictions r) as [r'|e]; [|done].
    destruct (getitem r' "savings") as [s|e]; [|done].
    destruct (is_ lb 0) eqn:Hlb.
    + change (Qltb (to_Q (PyInt 100000)) 50) with false. cbn [is_ Z.eqb Pos.eqb].
      by destruct (outer_loop _ _ _ _ _ _) as [[best ub']|e].
    + destruct Hcase as [?|Hstep]; [done|]. apply Qltb_false in Hstep. rewrite Hstep.
      assert (H1 : is_ step 1 = false).
      { destruct step as [z|q]; [|done]. cbn. destruct (Z.eqb_spec z 1) as [->|]; [|done].
        by vm_compute in Hstep. }
      rewrite H1. by destruct (outer_loop _ _ _ _ _ _) as [[best ub']|e].
Qed.

Lemma only_small_steps_return_witness :
  (∀ fuel, optimizeTotalHomeValue (S fuel) example_model example_restrictions
             (Boxed 50000) (PyInt 50100) (PyInt 1)
           = optimizeTotalHomeValue 1 example_model example_restrictions
               (Boxed 50000) (PyInt 50100) (PyInt 1))
  ∧ (∀ m, optimizeTotalHomeValue 1 example_model example_restrictions
            (PyInt 0) (PyInt 0) (PyInt 0) ≠ Some (Ok m)).
Proof.
  split.
  - apply (only_small_steps_return example_model example_restrictions
             (Boxed 50000) (PyInt 50100) (PyInt 1)); reflexivity.
  - apply (only_small_steps_return example_model example_restrictions
             (PyInt 0) (PyInt 0) (PyInt 0)). by left.
Defined.
